(** * Terminal Hangman (TerminalBased.py): a shallow embedding and its properties

    One session of [play_game] keeps three local variables
    ([chosen_word], [guessed_letters], [incorrect_guesses]), validates one
    input line per prompt in [get_guess], and draws every state through
    [display_game] into the bordered frame of [draw_border_and_content].
    The claims are settled on one session, from the choice of the word to
    the end of the game loop ([play_session]); [play_game] adds the boot
    message, the replay question and the farewell around the sessions,
    with fuel for its outer loop.

    Strings are Rocq [string]s, one [ascii] per character: the model covers
    input lines whose characters are 8-bit code points.  [Py.upper] and
    [Py.lower] change the ASCII letters only; they are Python's on ASCII
    strings, and what depends on them beyond that is stated for ASCII
    lines.  [guessed_letters] is a [gset string],
    as the Python set of one-character strings it is; [incorrect_guesses]
    is a [Z].  Terminal output, prompts and pauses are recorded as a list
    of [event]s, and a computation returns a value or raises. *)

From Stdlib Require Import ZArith Lia Ascii DecimalString.
From stdpp Require Import base gmap sets list strings sorting.

Local Open Scope Z_scope.

#[local] Set Warnings "-clear-no-such-hyp".

(** ** The Python operations the program uses *)

Module Py.

(** An exception, identified by the name of its class. *)
Record exn : Type := Raise { exn_class : string }.

Definition IndexError : exn := Raise "IndexError".
Definition EOFError : exn := Raise "EOFError".

(** The outcome of an expression that may raise. *)
Definition result (A : Type) : Type := (exn + A)%type.

Definition nl : string := String "010"%char EmptyString.

(** [len(s)] *)
Definition len (s : string) : nat := String.length s.

(** [s * n] for a string [s]. *)
Fixpoint str_mul (s : string) (n : nat) : string :=
  match n with
  | O => EmptyString
  | S n' => s +:+ str_mul s n'
  end.

(** [s.ljust(w)]: pads on the right with spaces, never truncates. *)
Definition ljust (s : string) (w : nat) : string :=
  s +:+ str_mul " " (w - len s)%nat.

Definition upper_char (c : ascii) : ascii :=
  let n := nat_of_ascii c in
  if ((97 <=? n) && (n <=? 122))%nat then ascii_of_nat (n - 32) else c.

(** [s.upper()] on ASCII strings.  The other 8-bit characters are left
    as they are, where Python may change them, never into a letter from
    "A" to "Z". *)
Fixpoint upper (s : string) : string :=
  match s with
  | EmptyString => EmptyString
  | String c s' => String (upper_char c) (upper s')
  end.

Definition lower_char (c : ascii) : ascii :=
  let n := nat_of_ascii c in
  if ((65 <=? n) && (n <=? 90))%nat then ascii_of_nat (n + 32) else c.

(** [s.lower()] on ASCII strings.  The other 8-bit characters are left
    as they are, where Python may change them, never into a letter from
    "a" to "z". *)
Fixpoint lower (s : string) : string :=
  match s with
  | EmptyString => EmptyString
  | String c s' => String (lower_char c) (lower s')
  end.

(** [s.split(sep)] for a separator of one character. *)
Fixpoint split (sep : ascii) (s : string) : list string :=
  match s with
  | EmptyString => [EmptyString]
  | String c s' =>
      if decide (c = sep) then EmptyString :: split sep s'
      else match split sep s' with
           | [] => [String c EmptyString]
           | piece :: pieces => String c piece :: pieces
           end
  end.

(** The characters [str.isspace] accepts, among the 8-bit code points. *)
Definition isspace (c : ascii) : bool :=
  let n := nat_of_ascii c in
  (((9 <=? n) && (n <=? 13)) || ((28 <=? n) && (n <=? 32))
   || (n =? 133) || (n =? 160))%nat.

Fixpoint lstrip (s : string) : string :=
  match s with
  | EmptyString => EmptyString
  | String c s' => if isspace c then lstrip s' else s
  end.

Fixpoint rstrip (s : string) : string :=
  match s with
  | EmptyString => EmptyString
  | String c s' =>
      match rstrip s' with
      | EmptyString => if isspace c then EmptyString else String c EmptyString
      | rest => String c rest
      end
  end.

(** [s.strip()] *)
Definition strip (s : string) : string := rstrip (lstrip s).

(** [sep.join(l)] *)
Definition join (sep : string) (l : list string) : string :=
  String.concat sep l.

(** [sub in s] for strings: [sub] occurs in [s] as a substring. *)
Fixpoint contains (sub s : string) : bool :=
  String.prefix sub s ||
  match s with
  | EmptyString => false
  | String _ s' => contains sub s'
  end.

(** Iterating over a string yields its characters as one-character
    strings. *)
Fixpoint chars (s : string) : list string :=
  match s with
  | EmptyString => []
  | String c s' => String c EmptyString :: chars s'
  end.

(** [str(n)] for an integer, as an f-string formats it. *)
Definition str_of_int (n : Z) : string :=
  NilZero.string_of_int (Z.to_int n).

(** [l[i]]: negative indices count from the end, anything outside
    [-len(l) .. len(l)-1] raises [IndexError]. *)
Definition getitem {A : Type} (l : list A) (i : Z) : result A :=
  let n := Z.of_nat (length l) in
  let j := if i <? 0 then n + i else i in
  if (0 <=? j) && (j <? n) then
    match l !! Z.to_nat j with
    | Some x => inr x
    | None => inl IndexError
    end
  else inl IndexError.

(** [sorted(list(s))] for a set of strings: ascending in the order of
    [<=] on strings. *)
Definition sorted (s : gset string) : list string :=
  merge_sort String.le (elements s).

(** [random.choice(seq)], with [r] the number the generator draws:
    raises [IndexError] on an empty sequence. *)
Definition random_choice {A : Type} (seq : list A) (r : nat) : result A :=
  match seq with
  | [] => inl IndexError
  | _ :: _ =>
      match seq !! (r mod length seq)%nat with
      | Some x => inr x
      | None => inl IndexError
      end
  end.

End Py.

(** ** colorama's escape sequences *)

Module Colorama.
Definition esc : string := String "027"%char "[".
Definition Fore_GREEN : string := esc +:+ "32m".
Definition Back_BLACK : string := esc +:+ "40m".
Definition Style_DIM : string := esc +:+ "2m".
Definition Style_BRIGHT : string := esc +:+ "1m".
Definition Style_RESET_ALL : string := esc +:+ "0m".
End Colorama.

(** ** Configuration *)

Definition WORD_LIST : list string :=
  [ "PYTHON"; "PROGRAMMING"; "COMPUTER"; "DEVELOPER"; "ALGORITHM";
    "TERMINAL"; "SCANLINE"; "RETRO"; "HANGMAN"; "KEYBOARD";
    "MONITOR"; "ELECTRONIC"; "VINTAGE"; "CONSOLE"; "PIXEL" ].

Definition HANGMAN_STAGES : list string :=
  let nl := Py.nl in
  [ nl
    +:+ "       -----" +:+ nl
    +:+ "       |   |" +:+ nl
    +:+ "           |" +:+ nl
    +:+ "           |" +:+ nl
    +:+ "           |" +:+ nl
    +:+ "           |" +:+ nl
    +:+ "    ---------" +:+ nl
    +:+ "    ";
    nl
    +:+ "       -----" +:+ nl
    +:+ "       |   |" +:+ nl
    +:+ "       O   |" +:+ nl
    +:+ "           |" +:+ nl
    +:+ "           |" +:+ nl
    +:+ "           |" +:+ nl
    +:+ "    ---------" +:+ nl
    +:+ "    ";
    nl
    +:+ "       -----" +:+ nl
    +:+ "       |   |" +:+ nl
    +:+ "       O   |" +:+ nl
    +:+ "       |   |" +:+ nl
    +:+ "           |" +:+ nl
    +:+ "           |" +:+ nl
    +:+ "    ---------" +:+ nl
    +:+ "    ";
    nl
    +:+ "       -----" +:+ nl
    +:+ "       |   |" +:+ nl
    +:+ "       O   |" +:+ nl
    +:+ "      /|   |" +:+ nl
    +:+ "           |" +:+ nl
    +:+ "           |" +:+ nl
    +:+ "    ---------" +:+ nl
    +:+ "    ";
    nl
    +:+ "       -----" +:+ nl
    +:+ "       |   |" +:+ nl
    +:+ "       O   |" +:+ nl
    +:+ "      /|\  |" +:+ nl
    +:+ "           |" +:+ nl
    +:+ "           |" +:+ nl
    +:+ "    ---------" +:+ nl
    +:+ "    ";
    nl
    +:+ "       -----" +:+ nl
    +:+ "       |   |" +:+ nl
    +:+ "       O   |" +:+ nl
    +:+ "      /|\  |" +:+ nl
    +:+ "      /    |" +:+ nl
    +:+ "           |" +:+ nl
    +:+ "    ---------" +:+ nl
    +:+ "    ";
    nl
    +:+ "       -----" +:+ nl
    +:+ "       |   |" +:+ nl
    +:+ "       O   |" +:+ nl
    +:+ "      /|\  |" +:+ nl
    +:+ "      / \  |" +:+ nl
    +:+ "           |" +:+ nl
    +:+ "    ---------" +:+ nl
    +:+ "    " ].

(** [MAX_INCORRECT_GUESSES = len(HANGMAN_STAGES) - 1] *)
Definition MAX_INCORRECT_GUESSES : Z := Z.of_nat (length HANGMAN_STAGES) - 1.

(** ** Terminal output *)

Inductive event : Type :=
| Clear                      (* clear_screen() *)
| Print (line : string)      (* print(line) *)
| Sleep (ms : Z)             (* time.sleep, in milliseconds *)
| Input (prompt : string).   (* input(prompt) *)

(** A computation that writes events and then returns or raises. *)
Definition io (A : Type) : Type := (list event * Py.result A)%type.

Definition io_ret {A : Type} (a : A) : io A := ([], inr a).

Definition io_raise {A : Type} (e : Py.exn) : io A := ([], inl e).

Definition io_tell (evs : list event) : io unit := (evs, inr tt).

Definition io_bind {A B : Type} (m : io A) (f : A -> io B) : io B :=
  match m with
  | (out, inl e) => (out, inl e)
  | (out, inr a) => let '(out', r) := f a in (out ++ out', r)
  end.

Notation "'let*' x ':=' m 'in' k" := (io_bind m (fun x => k))
  (at level 10, x pattern, m at level 100, k at level 200).

Definition clear_screen : io unit := io_tell [Clear].

Definition apply_crt_style (text : string) (bright : bool) : string :=
  if bright then
    Colorama.Fore_GREEN +:+ Colorama.Back_BLACK +:+ Colorama.Style_BRIGHT
      +:+ text +:+ Colorama.Style_RESET_ALL
  else
    Colorama.Fore_GREEN +:+ Colorama.Back_BLACK +:+ Colorama.Style_DIM
      +:+ text +:+ Colorama.Style_RESET_ALL.

Definition width : nat := 80.
Definition height : nat := 24.

(** The first loop of [draw_border_and_content]: every content line is
    left-justified to [width - 4]. *)
Definition pad_lines (content_lines : list string) : list string :=
  map (fun line => Py.ljust line (width - 4)) content_lines.

(** The [while] loop of [draw_border_and_content]: blank lines are appended
    as long as there are fewer than [height - 2] lines. *)
Definition fill_lines (padded_content_lines : list string) : list string :=
  padded_content_lines ++
  replicate (height - 2 - length padded_content_lines)
            (Py.ljust EmptyString (width - 4)).

(** The rows of the frame as [draw_border_and_content] hands them to
    [apply_crt_style]: the text and its [bright] flag. *)
Definition frame_rows (content_lines : list string) : list (string * bool) :=
  let padded_content_lines := fill_lines (pad_lines content_lines) in
  [("+" +:+ Py.str_mul "-" (width - 2) +:+ "+", false)]
  ++ map (fun line => ("| " +:+ line +:+ " |", true)) padded_content_lines
  ++ [("+" +:+ Py.str_mul "-" (width - 2) +:+ "+", false)].

Definition draw_border_and_content (content_lines : list string) : list string :=
  map (fun row => apply_crt_style (fst row) (snd row)) (frame_rows content_lines).

Definition crt_refresh_effect (display_lines : list string) : io unit :=
  let* _ := clear_screen in
  io_tell (concat (map (fun line => [Print line; Sleep 5]) display_lines)).


(** ** The game screen ([display_game]) *)

(** The masked word, built letter by letter (the first loop of
    [display_game]). *)
Definition display_word (chosen_word : string) (guessed_letters : gset string)
  : string :=
  foldl (fun acc letter =>
           if decide (letter ∈ guessed_letters)
           then acc +:+ (letter +:+ " ")
           else acc +:+ "_ ")
        EmptyString (Py.chars chosen_word).

Definition title_line : string :=
  Py.str_mul " " 15 +:+ Colorama.Style_BRIGHT
    +:+ "--- HANGMAN CRT EDITION ---" +:+ Colorama.Style_RESET_ALL.

Definition word_line (chosen_word : string) (guessed_letters : gset string)
  : string :=
  " Word: " +:+ Py.strip (display_word chosen_word guessed_letters).

Definition guessed_line (guessed_letters : gset string) : string :=
  " Guessed Letters: "
    +:+ Py.join ", " (Py.sorted (guessed_letters ∖ {[ " " ]})).

Definition left_line (incorrect_guesses : Z) : string :=
  " Incorrect Guesses Left: "
    +:+ Py.str_of_int (MAX_INCORRECT_GUESSES - incorrect_guesses).

Definition status_line (message : string) : string := " Status: " +:+ message.

(** The list [content] of [display_game]; the lookup of the stage is the
    only step that can raise. *)
Definition game_content (chosen_word : string) (guessed_letters : gset string)
    (incorrect_guesses : Z) (message : string) : Py.result (list string) :=
  match Py.getitem HANGMAN_STAGES incorrect_guesses with
  | inl e => inl e
  | inr stage =>
      let hangman_art := Py.split "010" stage in
      inr ([title_line; EmptyString]
           ++ hangman_art
           ++ [EmptyString;
               word_line chosen_word guessed_letters;
               guessed_line guessed_letters;
               left_line incorrect_guesses;
               EmptyString;
               status_line message;
               EmptyString;
               " >_ "])
  end.

(** The rows of the screen before [apply_crt_style] colours them. *)
Definition game_rows (chosen_word : string) (guessed_letters : gset string)
    (incorrect_guesses : Z) (message : string)
  : Py.result (list (string * bool)) :=
  match game_content chosen_word guessed_letters incorrect_guesses message with
  | inl e => inl e
  | inr content => inr (frame_rows content)
  end.

(** [full_display_content] of [display_game]. *)
Definition game_frame (chosen_word : string) (guessed_letters : gset string)
    (incorrect_guesses : Z) (message : string) : Py.result (list string) :=
  match game_content chosen_word guessed_letters incorrect_guesses message with
  | inl e => inl e
  | inr content => inr (draw_border_and_content content)
  end.

Definition display_game (chosen_word : string) (guessed_letters : gset string)
    (incorrect_guesses : Z) (message : string) (skip_effect : bool) : io unit :=
  match game_frame chosen_word guessed_letters incorrect_guesses message with
  | inl e => io_raise e
  | inr full_display_content =>
      if negb skip_effect then crt_refresh_effect full_display_content
      else
        let* _ := clear_screen in
        io_tell (map Print full_display_content)
  end.

(** ** Game logic *)

Definition invalid_message : string :=
  "Invalid input. Please enter a single letter (A-Z).".

Definition already_message (guess : string) : string :=
  "You already guessed '" +:+ guess +:+ "'. Try again.".

(** The first test of [get_guess]:
    [len(guess) != 1 or not 'A' <= guess <= 'Z']. *)
Definition invalid_guess (guess : string) : bool :=
  negb (Py.len guess =? 1)%nat
  || negb (String.leb "A" guess && String.leb guess "Z").

(** [get_guess(already_guessed)], given the line [raw] that [input]
    returns.  Every path of the body returns, so the [while True] runs
    once. *)
Definition get_guess (raw : string) (already_guessed : gset string)
  : io (option string) :=
  let* _ := io_tell [Input (apply_crt_style "Enter your guess: " true)] in
  let guess := Py.upper raw in
  if invalid_guess guess then
    let* _ := io_tell [Print (apply_crt_style invalid_message true);
                       Sleep 1500] in
    io_ret None
  else if decide (guess ∈ already_guessed) then
    let* _ := io_tell [Print (apply_crt_style (already_message guess) true);
                       Sleep 1500] in
    io_ret None
  else io_ret (Some guess).

(** The local variables of one session of [play_game]. *)
Record GameState : Type := {
  chosen_word : string;
  guessed_letters : gset string;
  incorrect_guesses : Z
}.

(** The start of a session: an empty set and a zero counter. *)
Definition new_game (word : string) : GameState :=
  {| chosen_word := word; guessed_letters := ∅; incorrect_guesses := 0 |}.

(** [random.choice(WORD_LIST)], with the list as an argument. *)
Definition choose_word (word_list : list string) (r : nat)
  : Py.result string :=
  Py.random_choice word_list r.

(** [guessed_letters.add(guess)] and the update of the counter that
    follows it. *)
Definition apply_guess (st : GameState) (guess : string) : GameState :=
  {| chosen_word := chosen_word st;
     guessed_letters := {[ guess ]} ∪ guessed_letters st;
     incorrect_guesses :=
       if negb (Py.contains guess (chosen_word st))
       then incorrect_guesses st + 1
       else incorrect_guesses st |}.

(** [all(letter in guessed_letters for letter in chosen_word)] *)
Definition all_guessed (chosen_word : string) (guessed_letters : gset string)
  : bool :=
  forallb (fun letter => bool_decide (letter ∈ guessed_letters))
          (Py.chars chosen_word).

Inductive Status : Type := InProgress | Won | Lost.

(** The two tests at the top of the game loop, the win first. *)
Definition status (st : GameState) : Status :=
  if all_guessed (chosen_word st) (guessed_letters st) then Won
  else if MAX_INCORRECT_GUESSES <=? incorrect_guesses st then Lost
  else InProgress.

Definition show (st : GameState) (message : string) (skip_effect : bool)
  : io unit :=
  display_game (chosen_word st) (guessed_letters st) (incorrect_guesses st)
               message skip_effect.

(** The top of the game loop: the screen, then the win and loss tests;
    [continue] is the rest of the loop body. *)
Definition round_start (st : GameState) (continue : io GameState)
  : io GameState :=
  let* _ := show st "Guess a letter." false in
  match status st with
  | Won =>
      let* _ := show st "CONGRATULATIONS! You guessed the word!" true in
      io_ret st
  | Lost =>
      let* _ := show st ("GAME OVER! The word was '" +:+ chosen_word st
                           +:+ "'.") true in
      io_ret st
  | InProgress => continue
  end.

(** The screen that reports a hit or a miss, and the pause after it. *)
Definition report_guess (st' : GameState) (guess : string) : io unit :=
  let* _ :=
    (if negb (Py.contains guess (chosen_word st'))
     then show st' ("'" +:+ guess +:+ "' is not in the word.") false
     else show st' ("Good guess! '" +:+ guess +:+ "' is in the word.") false) in
  io_tell [Sleep 1000].

(** The game loop from the inner [while guess is None] on, over the lines
    still to be read from standard input; [input] raises [EOFError] when
    there is none. *)
Fixpoint guess_loop (st : GameState) (inputs : list string) : io GameState :=
  let* _ := show st "Enter your guess..." false in
  match inputs with
  | [] =>
      let* _ := io_tell [Input (apply_crt_style "Enter your guess: " true)] in
      io_raise Py.EOFError
  | raw :: rest =>
      let* guess := get_guess raw (guessed_letters st) in
      match guess with
      | None => guess_loop st rest
      | Some guess =>
          let st' := apply_guess st guess in
          let* _ := report_guess st' guess in
          round_start st' (guess_loop st' rest)
      end
  end.

(** One session of [play_game], from the chosen word to the end of the
    game loop. *)
Definition play_session (word : string) (inputs : list string)
  : io GameState :=
  round_start (new_game word) (guess_loop (new_game word) inputs).

(** ** Sessions as a transition system *)

(** One accepted guess: the game is running, [get_guess] returns [guess]
    for some input line, and the state is updated. *)
Inductive step (st : GameState) (guess : string) : GameState -> Prop :=
| step_guess (raw : string) :
    status st = InProgress ->
    snd (get_guess raw (guessed_letters st)) = inr (Some guess) ->
    step st guess (apply_guess st guess).

(** [steps st hist st']: the guesses [hist], in order, lead from [st] to
    [st']. *)
Inductive steps (st : GameState) : list string -> GameState -> Prop :=
| steps_nil : steps st [] st
| steps_snoc (hist : list string) (st' : GameState)
             (guess : string) (st'' : GameState) :
    steps st hist st' -> step st' guess st'' ->
    steps st (hist ++ [guess]) st''.

(** A state of a session that started with a word drawn from
    [WORD_LIST]. *)
Definition session (hist : list string) (st : GameState) : Prop :=
  exists (r : nat) (word : string),
    choose_word WORD_LIST r = inr word /\ steps (new_game word) hist st.

Definition reachable (st : GameState) : Prop :=
  exists hist : list string, session hist st.

(** The state after feeding the lines [inputs] to the game loop, with the
    accepted guesses; lines are ignored once the game is over. *)
Fixpoint run (st : GameState) (inputs : list string)
  : GameState * list string :=
  match inputs with
  | [] => (st, [])
  | raw :: rest =>
      match status st, snd (get_guess raw (guessed_letters st)) with
      | InProgress, inr (Some guess) =>
          let '(st', hist) := run (apply_guess st guess) rest in
          (st', guess :: hist)
      | InProgress, _ => run st rest
      | _, _ => (st, [])
      end
  end.

(** ** Claims as the specification words them *)

(** The rejection reasons of the specification's validator, by its rules
    2 to 4 in order; [None] when the input is accepted. *)
Inductive RejectionReason : Type := InvalidLength | NotALetter | AlreadyGuessed.

Definition uppercase_letter (s : string) : Prop :=
  exists c : ascii, s = String c EmptyString /\ (65 <= nat_of_ascii c <= 90)%nat.

Definition spec_rejection (raw : string) (already_guessed : gset string)
  : option RejectionReason :=
  let guess := Py.upper raw in
  match guess with
  | String c EmptyString =>
      if ((65 <=? nat_of_ascii c) && (nat_of_ascii c <=? 90))%nat then
        if decide (guess ∈ already_guessed) then Some AlreadyGuessed else None
      else Some NotALetter
  | _ => Some InvalidLength
  end.

(** The message [get_guess] prints for a line, if it prints one. *)
Definition printed_message (raw : string) (already_guessed : gset string)
  : option string :=
  match fst (get_guess raw already_guessed) with
  | [_; Print line; _] => Some line
  | _ => None
  end.

(** The interior of a row: the frame without its two border characters
    and the two spaces next to them. *)
Definition interior_width : nat := (width - 4)%nat.

(** A frame of exactly [height] rows of exactly [width] characters. *)
Definition well_sized (rows : list (string * bool)) : Prop :=
  length rows = height /\
  Forall (fun row => String.length (fst row) = width) rows.

(** The letters of a word, as the set of its one-character strings. *)
Definition word_letters (word : string) : gset string :=
  list_to_set (Py.chars word).

(** What holds of every state that the guesses [hist] lead to from the
    start of a session on [word]. *)
Record invariant (word : string) (hist : list string) (st : GameState)
  : Prop := {
  inv_word : chosen_word st = word;
  inv_guessed : guessed_letters st = list_to_set hist;
  inv_nodup : NoDup hist;
  inv_letters : Forall uppercase_letter hist;
  inv_count :
    incorrect_guesses st
    = Z.of_nat (size (guessed_letters st ∖ word_letters word));
  inv_misses :
    incorrect_guesses st
    = Z.of_nat (length (filter (fun guess => guess ∉ Py.chars word) hist));
  inv_bound : incorrect_guesses st <= MAX_INCORRECT_GUESSES
}.

(** ** Columns on the terminal *)

Definition ESC : ascii := "027"%char.

(** Where the terminal is in its input: in text, after an escape
    character, or inside a control sequence ("ESC [" up to a final
    character from "@" to "~"). *)
Inductive terminal_state : Type := Text | Escape | Csi.

(** The characters of a string that the terminal shows: those of an
    escape sequence take no column. *)
Fixpoint visible_from (state : terminal_state) (s : string) : string :=
  match s with
  | EmptyString => EmptyString
  | String c s' =>
      match state with
      | Text =>
          if decide (c = ESC) then visible_from Escape s'
          else String c (visible_from Text s')
      | Escape =>
          if decide (c = "["%char) then visible_from Csi s'
          else visible_from Text s'
      | Csi =>
          if ((64 <=? nat_of_ascii c) && (nat_of_ascii c <=? 126))%nat
          then visible_from Text s'
          else visible_from Csi s'
      end
  end.

(** The width of a string on the terminal. *)
Definition columns (s : string) : nat := String.length (visible_from Text s).

(** A string without an escape character. *)
Definition escape_free (s : string) : Prop :=
  String ESC EmptyString ∉ Py.chars s.

(** The row of the title, as [draw_border_and_content] builds it from the
    first content line of [display_game]. *)
Definition title_row : string :=
  "| " +:+ Py.ljust title_line (width - 4) +:+ " |".

(** The border row. *)
Definition border_row : string := "+" +:+ Py.str_mul "-" (width - 2) +:+ "+".

(** A line of ASCII characters. *)
Definition ascii_line (s : string) : Prop :=
  forall c : ascii,
    String c EmptyString ∈ Py.chars s -> (nat_of_ascii c < 128)%nat.

(** ** The whole program ([play_game]) *)

(** The lines an output prints, in order. *)
Definition printed (out : list event) : list string :=
  omap (fun ev => match ev with Print line => Some line | _ => None end) out.

(** The pauses an output makes, in order, in milliseconds. *)
Definition pauses (out : list event) : list Z :=
  omap (fun ev => match ev with Sleep ms => Some ms | _ => None end) out.

Definition io_map {A B : Type} (f : A -> B) (m : io A) : io B :=
  (fst m, match snd m with
          | inl e => inl e
          | inr a => inr (f a)
          end).

(** [round_start], returning the lines of standard input left unread as
    well. *)
Definition round_start_from (st : GameState) (inputs : list string)
    (continue : io (GameState * list string)) : io (GameState * list string) :=
  let* _ := show st "Guess a letter." false in
  match status st with
  | Won =>
      let* _ := show st "CONGRATULATIONS! You guessed the word!" true in
      io_ret (st, inputs)
  | Lost =>
      let* _ := show st ("GAME OVER! The word was '" +:+ chosen_word st
                           +:+ "'.") true in
      io_ret (st, inputs)
  | InProgress => continue
  end.

(** [guess_loop], returning the lines of standard input left unread as
    well. *)
Fixpoint guess_loop_from (st : GameState) (inputs : list string)
  : io (GameState * list string) :=
  let* _ := show st "Enter your guess..." false in
  match inputs with
  | [] =>
      let* _ := io_tell [Input (apply_crt_style "Enter your guess: " true)] in
      io_raise Py.EOFError
  | raw :: rest =>
      let* guess := get_guess raw (guessed_letters st) in
      match guess with
      | None => guess_loop_from st rest
      | Some guess =>
          let st' := apply_guess st guess in
          let* _ := report_guess st' guess in
          round_start_from st' rest (guess_loop_from st' rest)
      end
  end.

Definition play_session_from (word : string) (inputs : list string)
  : io (GameState * list string) :=
  round_start_from (new_game word) inputs
                   (guess_loop_from (new_game word) inputs).

(** The first three statements of [play_game]. *)
Definition boot : io unit :=
  let* _ := clear_screen in
  io_tell [Print (apply_crt_style "Booting up CRT Hangman..." true);
           Sleep 1500].

(** The last three statements of [play_game]. *)
Definition farewell : io unit :=
  let* _ := clear_screen in
  io_tell [Print (apply_crt_style "Thanks for playing CRT Hangman!" true);
           Sleep 1500].

Definition play_again_prompt : string :=
  apply_crt_style (Py.nl +:+ "Play again? (yes/no): ") true.

(** The outer [while True] of [play_game]: a session on a word drawn from
    [WORD_LIST], then the question whether to play again.  [draws k] is
    the number the generator draws for session [k].  Every round reads at
    least one line, so [fuel] bounds the number of rounds; [None] is
    returned when it runs out. *)
Fixpoint play_loop (fuel : nat) (draws : nat -> nat) (k : nat)
    (inputs : list string) : io (option unit) :=
  match fuel with
  | O => io_ret None
  | S fuel' =>
      match choose_word WORD_LIST (draws k) with
      | inl e => io_raise e
      | inr chosen_word =>
          let* finished := play_session_from chosen_word inputs in
          let* _ := io_tell [Input play_again_prompt] in
          match snd finished with
          | [] => io_raise Py.EOFError
          | answer :: rest' =>
              let play_again := Py.lower answer in
              if decide (play_again <> "yes") then io_ret (Some tt)
              else play_loop fuel' draws (S k) rest'
          end
      end
  end.

(** [play_game()], reading the lines [inputs] from standard input. *)
Definition play_game (fuel : nat) (draws : nat -> nat) (inputs : list string)
  : io (option unit) :=
  let* _ := boot in
  let* r := play_loop fuel draws 0 inputs in
  match r with
  | None => io_ret None
  | Some _ =>
      let* _ := farewell in
      io_ret (Some tt)
  end.

(** The letters of the alphabet, as one-character strings. *)
Definition ALPHABET : list string := Py.chars "ABCDEFGHIJKLMNOPQRSTUVWXYZ".

(** ** Strings *)

Lemma str_length_app (s1 s2 : string) :
  String.length (s1 +:+ s2) = (String.length s1 + String.length s2)%nat.
Proof.
  induction s1 as [|c s1 IH]; simpl; [reflexivity|].
  change (String c s1 +:+ s2) with (String c (s1 +:+ s2)). simpl.
  now rewrite IH.
Qed.

Lemma length_str_mul (s : string) (n : nat) :
  String.length (Py.str_mul s n) = (n * String.length s)%nat.
Proof.
  induction n as [|n IH]; simpl; [reflexivity|].
  rewrite str_length_app, IH. lia.
Qed.

Lemma length_ljust (s : string) (w : nat) :
  (String.length s <= w)%nat -> String.length (Py.ljust s w) = w.
Proof.
  intros Hle. unfold Py.ljust, Py.len.
  rewrite str_length_app, length_str_mul. simpl. lia.
Qed.

Lemma length_ljust_long (s : string) (w : nat) :
  (w < String.length s)%nat -> String.length (Py.ljust s w) = String.length s.
Proof.
  intros Hlt. unfold Py.ljust, Py.len.
  rewrite str_length_app, length_str_mul. simpl. lia.
Qed.

Lemma letter_range (c : ascii) :
  String.leb "A" (String c EmptyString) && String.leb (String c EmptyString) "Z"
  = ((65 <=? nat_of_ascii c) && (nat_of_ascii c <=? 90))%nat.
Proof. destruct c as [[] [] [] [] [] [] [] []]; reflexivity. Qed.

Lemma invalid_guess_false (guess : string) :
  invalid_guess guess = false <-> uppercase_letter guess.
Proof.
  unfold invalid_guess, uppercase_letter, Py.len.
  destruct guess as [|c [|d rest]]; simpl.
  - split; [discriminate|]. intros (c & Hc & _). discriminate.
  - rewrite letter_range. split.
    + intros H. exists c. split; [reflexivity|].
      apply negb_false_iff, andb_true_iff in H as [H1 H2].
      apply Nat.leb_le in H1, H2. lia.
    + intros (c' & Hc & Hr). injection Hc as ->.
      apply negb_false_iff, andb_true_iff. split; apply Nat.leb_le; lia.
  - split; [discriminate|]. intros (c' & Hc & _). discriminate.
Qed.

Lemma get_guess_result (raw : string) (already_guessed : gset string) :
  snd (get_guess raw already_guessed) =
  inr (if invalid_guess (Py.upper raw) then None
       else if decide (Py.upper raw ∈ already_guessed) then None
       else Some (Py.upper raw)).
Proof.
  unfold get_guess. simpl.
  destruct (invalid_guess (Py.upper raw)); [reflexivity|].
  destruct (decide (Py.upper raw ∈ already_guessed)); reflexivity.
Qed.

Lemma get_guess_accepts (raw : string) (already_guessed : gset string)
    (guess : string) :
  snd (get_guess raw already_guessed) = inr (Some guess) <->
  guess = Py.upper raw /\ uppercase_letter guess /\ guess ∉ already_guessed.
Proof.
  rewrite get_guess_result. split.
  - destruct (invalid_guess (Py.upper raw)) eqn:Hinv; [discriminate|].
    destruct (decide (Py.upper raw ∈ already_guessed)); [discriminate|].
    intros [= <-]. apply invalid_guess_false in Hinv. auto.
  - intros (-> & Hl & Hn). apply invalid_guess_false in Hl. rewrite Hl.
    destruct (decide (Py.upper raw ∈ already_guessed)); [contradiction|].
    reflexivity.
Qed.

(** ** The transition system *)

Lemma max_incorrect_guesses : MAX_INCORRECT_GUESSES = 6.
Proof. reflexivity. Qed.

Lemma contains_letter (c : ascii) (word : string) :
  Py.contains (String c EmptyString) word = true
  <-> String c EmptyString ∈ Py.chars word.
Proof.
  induction word as [|d word IH]; simpl.
  - split; [discriminate|]. intros H. inversion H.
  - rewrite orb_true_iff, IH, elem_of_cons.
    destruct (ascii_dec c d) as [->|Hne].
    + split; auto. intros _. left. destruct word; reflexivity.
    + split.
      * intros [H|H]; [discriminate|auto].
      * intros [[= H]|H]; [contradiction|auto].
Qed.

Lemma contains_word_letters (guess word : string) :
  uppercase_letter guess ->
  Py.contains guess word = true <-> guess ∈ word_letters word.
Proof.
  intros (c & -> & _). unfold word_letters.
  rewrite contains_letter, elem_of_list_to_set. reflexivity.
Qed.

Lemma status_in_progress (st : GameState) :
  status st = InProgress ->
  all_guessed (chosen_word st) (guessed_letters st) = false
  /\ incorrect_guesses st < MAX_INCORRECT_GUESSES.
Proof.
  unfold status.
  destruct (all_guessed _ _); [discriminate|].
  destruct (MAX_INCORRECT_GUESSES <=? incorrect_guesses st) eqn:Hle;
    [discriminate|].
  intros _. split; [reflexivity|]. apply Z.leb_gt in Hle. exact Hle.
Qed.

Lemma step_inversion (st : GameState) (guess : string) (st' : GameState) :
  step st guess st' ->
  st' = apply_guess st guess /\ status st = InProgress
  /\ uppercase_letter guess /\ guess ∉ guessed_letters st.
Proof.
  intros [raw Hst Hg]. apply get_guess_accepts in Hg as (_ & Hl & Hn). auto.
Qed.

Lemma invariant_new_game (word : string) : invariant word [] (new_game word).
Proof.
  split; simpl; try reflexivity.
  - constructor.
  - constructor.
  - replace (∅ ∖ word_letters word) with (∅ : gset string) by set_solver.
    rewrite size_empty. reflexivity.
  - rewrite max_incorrect_guesses. lia.
Qed.

Lemma invariant_step (word : string) (hist : list string)
    (st : GameState) (guess : string) (st' : GameState) :
  invariant word hist st -> step st guess st' ->
  invariant word (hist ++ [guess]) st'.
Proof.
  intros [Hw Hg Hnd Hl Hc Hm Hb] Hstep.
  apply step_inversion in Hstep as (-> & Hst & Hletter & Hnew).
  apply status_in_progress in Hst as [_ Hlt].
  split; simpl.
  - exact Hw.
  - rewrite Hg. set_solver.
  - apply NoDup_app. split; [exact Hnd|]. split; [|apply NoDup_singleton].
    intros x Hx Hx'. apply list_elem_of_singleton in Hx' as ->.
    apply Hnew. rewrite Hg. apply elem_of_list_to_set. exact Hx.
  - apply Forall_app. split; [exact Hl|]. constructor; [exact Hletter|constructor].
  - rewrite Hw.
    destruct (Py.contains guess word) eqn:Hin; simpl.
    + apply contains_word_letters in Hin; [|exact Hletter].
      replace (({[guess]} ∪ guessed_letters st) ∖ word_letters word)
        with (guessed_letters st ∖ word_letters word) by set_solver.
      exact Hc.
    + assert (guess ∉ word_letters word) as Hout.
      { intros Hin'. apply contains_word_letters in Hin'; [|exact Hletter].
        congruence. }
      replace (({[guess]} ∪ guessed_letters st) ∖ word_letters word)
        with ({[guess]} ∪ (guessed_letters st ∖ word_letters word))
        by set_solver.
      rewrite size_union by set_solver. rewrite size_singleton, Hc. lia.
  - rewrite Hw, filter_app, length_app, Nat2Z.inj_add, <- Hm.
    destruct Hletter as (c & -> & Hc').
    destruct (Py.contains (String c EmptyString) word) eqn:Hin; simpl.
    + apply contains_letter in Hin.
      rewrite filter_cons_False by auto. simpl. lia.
    + assert (String c EmptyString ∉ Py.chars word) as Hout.
      { intros Hin'. apply contains_letter in Hin'. congruence. }
      rewrite filter_cons_True by exact Hout. simpl. lia.
  - destruct (negb (Py.contains guess (chosen_word st))); lia.
Qed.

Lemma steps_invariant (word : string) (hist0 : list string) (st0 : GameState)
    (hist : list string) (st : GameState) :
  invariant word hist0 st0 -> steps st0 hist st ->
  invariant word (hist0 ++ hist) st.
Proof.
  intros H0 Hsteps. induction Hsteps as [|hist st' guess st'' _ IH Hstep].
  - rewrite app_nil_r. exact H0.
  - rewrite app_assoc. eapply invariant_step; eassumption.
Qed.

Lemma choose_word_elem (word_list : list string) (r : nat) (word : string) :
  choose_word word_list r = inr word -> word ∈ word_list.
Proof.
  unfold choose_word, Py.random_choice.
  destruct word_list as [|w ws]; [discriminate|].
  destruct ((w :: ws) !! _) as [x|] eqn:Hx; [|discriminate].
  intros [= <-]. eapply list_elem_of_lookup_2. exact Hx.
Qed.

Lemma session_invariant (hist : list string) (st : GameState) :
  session hist st ->
  exists word : string, word ∈ WORD_LIST /\ invariant word hist st.
Proof.
  intros (r & word & Hword & Hsteps). exists word. split.
  - eapply choose_word_elem. exact Hword.
  - apply (steps_invariant word [] (new_game word) hist st);
      [apply invariant_new_game|exact Hsteps].
Qed.

Lemma steps_trans (st0 : GameState) (hist : list string) (st : GameState)
    (more : list string) (st' : GameState) :
  steps st0 hist st -> steps st more st' -> steps st0 (hist ++ more) st'.
Proof.
  intros H0 H. induction H as [|more st' guess st'' _ IH Hstep].
  - rewrite app_nil_r. exact H0.
  - rewrite app_assoc. econstructor; eassumption.
Qed.

Lemma session_extend (hist : list string) (st : GameState)
    (more : list string) (st' : GameState) :
  session hist st -> steps st more st' -> session (hist ++ more) st'.
Proof.
  intros (r & word & Hword & H0) H. exists r, word. split; [exact Hword|].
  eapply steps_trans; eassumption.
Qed.

(** ** The frame *)

Lemma fill_lines_length (lines : list string) :
  (length lines <= height - 2)%nat ->
  length (fill_lines lines) = (height - 2)%nat.
Proof.
  intros Hle. unfold fill_lines. rewrite length_app, length_replicate. lia.
Qed.

Lemma fill_pad_width (content_lines : list string) :
  Forall (fun line => (String.length line <= width - 4)%nat) content_lines ->
  Forall (fun line => String.length line = (width - 4)%nat)
         (fill_lines (pad_lines content_lines)).
Proof.
  intros Hfit. unfold fill_lines, pad_lines. apply Forall_app. split.
  - apply Forall_map. eapply Forall_impl; [exact Hfit|].
    intros line Hle. simpl. apply length_ljust. exact Hle.
  - apply Forall_replicate. apply length_ljust. simpl. lia.
Qed.

Lemma frame_rows_length (content_lines : list string) :
  (length content_lines <= height - 2)%nat ->
  length (frame_rows content_lines) = height.
Proof.
  intros Hle. unfold frame_rows. cbn [app length].
  rewrite length_app, length_map, fill_lines_length.
  - reflexivity.
  - unfold pad_lines. rewrite length_map. exact Hle.
Qed.

Lemma frame_rows_width (content_lines : list string) :
  Forall (fun line => (String.length line <= width - 4)%nat) content_lines ->
  Forall (fun row => String.length (fst row) = width)
         (frame_rows content_lines).
Proof.
  intros Hfit. unfold frame_rows.
  apply Forall_app. split; [constructor; [reflexivity|constructor]|].
  apply Forall_app. split; [|constructor; [reflexivity|constructor]].
  apply Forall_map. eapply Forall_impl; [apply fill_pad_width, Hfit|].
  intros line Hlen. cbn [fst]. rewrite !str_length_app, Hlen. reflexivity.
Qed.

Lemma frame_rows_well_sized (content_lines : list string) :
  (length content_lines <= height - 2)%nat ->
  Forall (fun line => (String.length line <= width - 4)%nat) content_lines ->
  well_sized (frame_rows content_lines).
Proof.
  intros Hlen Hfit. split;
    [apply frame_rows_length, Hlen|apply frame_rows_width, Hfit].
Qed.

Lemma getitem_stage (i : Z) :
  0 <= i <= MAX_INCORRECT_GUESSES ->
  exists stage : string,
    Py.getitem HANGMAN_STAGES i = inr stage
    /\ HANGMAN_STAGES !! Z.to_nat i = Some stage
    /\ length (Py.split "010" stage) = 9%nat
    /\ Forall (fun line => (String.length line <= 13)%nat)
              (Py.split "010" stage).
Proof.
  rewrite max_incorrect_guesses. intros Hi.
  assert (i = 0 \/ i = 1 \/ i = 2 \/ i = 3 \/ i = 4 \/ i = 5 \/ i = 6)
    as Hcases by lia.
  destruct Hcases as [->|[->|[->|[->|[->|[->| ->]]]]]];
    (eexists; split; [reflexivity|]; split; [reflexivity|];
     split; [reflexivity|]; repeat (constructor; [vm_compute; lia|]);
     constructor).
Qed.

Lemma display_word_length_from (guessed_letters : gset string)
    (letters : list string) (acc : string) :
  Forall (fun letter => String.length letter = 1%nat) letters ->
  String.length
    (foldl (fun acc letter =>
              if decide (letter ∈ guessed_letters)
              then acc +:+ (letter +:+ " ")
              else acc +:+ "_ ") acc letters)
  = (String.length acc + 2 * length letters)%nat.
Proof.
  intros Hone. revert acc.
  induction Hone as [|letter letters H1 _ IH]; intros acc; simpl; [lia|].
  rewrite IH. destruct (decide (letter ∈ guessed_letters));
    rewrite !str_length_app; simpl; lia.
Qed.

Lemma chars_length (s : string) : length (Py.chars s) = String.length s.
Proof. induction s as [|c s IH]; simpl; congruence. Qed.

Lemma chars_one (s : string) :
  Forall (fun letter => String.length letter = 1%nat) (Py.chars s).
Proof. induction s as [|c s IH]; simpl; constructor; auto. Qed.

Lemma display_word_length (word : string) (guessed_letters : gset string) :
  String.length (display_word word guessed_letters)
  = (2 * String.length word)%nat.
Proof.
  unfold display_word.
  rewrite display_word_length_from by apply chars_one.
  rewrite chars_length. reflexivity.
Qed.

Lemma lstrip_length (s : string) :
  (String.length (Py.lstrip s) <= String.length s)%nat.
Proof.
  induction s as [|c s IH]; simpl; [lia|].
  destruct (Py.isspace c); simpl; lia.
Qed.

Lemma rstrip_length (s : string) :
  (String.length (Py.rstrip s) <= String.length s)%nat.
Proof.
  induction s as [|c s IH]; simpl; [lia|].
  destruct (Py.rstrip s) as [|d rest]; [destruct (Py.isspace c)|];
    simpl in *; lia.
Qed.

Lemma strip_length (s : string) :
  (String.length (Py.strip s) <= String.length s)%nat.
Proof.
  unfold Py.strip. etransitivity; [apply rstrip_length|apply lstrip_length].
Qed.

Lemma join_length (l : list string) :
  Forall (fun x => String.length x = 1%nat) l ->
  (String.length (Py.join ", " l) <= 3 * length l)%nat.
Proof.
  unfold Py.join. induction 1 as [|x l Hx Hl IH]; simpl; [lia|].
  destruct l as [|y l]; [simpl; lia|].
  change (String.length (x +:+ ", " +:+ String.concat ", " (y :: l))
          <= 3 * S (length (y :: l)))%nat.
  rewrite !str_length_app. change (String.length ", ") with 2%nat. lia.
Qed.

Lemma word_list_length (word : string) :
  word ∈ WORD_LIST -> (String.length word <= 11)%nat.
Proof.
  intros Hin.
  assert (Forall (fun w => (String.length w <= 11)%nat) WORD_LIST) as Hall.
  { unfold WORD_LIST. repeat (constructor; [simpl; lia|]). constructor. }
  rewrite Forall_forall in Hall. apply Hall. exact Hin.
Qed.

Lemma size_list_to_set_le (l : list string) :
  (size (list_to_set l : gset string) <= length l)%nat.
Proof.
  induction l as [|x l IH].
  - rewrite list_to_set_nil, size_empty. simpl. lia.
  - rewrite list_to_set_cons, size_union_alt, size_singleton. simpl.
    assert (size (list_to_set l ∖ {[x]} : gset string)
            <= size (list_to_set l : gset string))%nat as Hsub
      by (apply subseteq_size; set_solver).
    lia.
Qed.

Lemma sorted_length (s : gset string) : length (Py.sorted s) = size s.
Proof.
  unfold Py.sorted. rewrite merge_sort_Permutation. reflexivity.
Qed.

Lemma sorted_elem (s : gset string) (x : string) : x ∈ Py.sorted s <-> x ∈ s.
Proof.
  unfold Py.sorted. rewrite merge_sort_Permutation. apply elem_of_elements.
Qed.

Lemma guessed_line_length (guessed_letters : gset string) :
  (forall x : string, x ∈ guessed_letters -> String.length x = 1%nat) ->
  (String.length (guessed_line guessed_letters)
   <= 18 + 3 * size guessed_letters)%nat.
Proof.
  intros Hone. unfold guessed_line. rewrite str_length_app.
  change (String.length " Guessed Letters: ") with 18%nat.
  assert (String.length (Py.join ", " (Py.sorted (guessed_letters ∖ {[" "]})))
          <= 3 * length (Py.sorted (guessed_letters ∖ {[" "]})))%nat as Hjoin.
  { apply join_length. apply Forall_forall. intros x Hx.
    apply sorted_elem in Hx. apply Hone. set_solver. }
  rewrite sorted_length in Hjoin.
  assert (size (guessed_letters ∖ {[" "]}) <= size guessed_letters)%nat
    by (apply subseteq_size; set_solver).
  lia.
Qed.

Lemma word_line_length (word : string) (guessed_letters : gset string) :
  (String.length (word_line word guessed_letters)
   <= 7 + 2 * String.length word)%nat.
Proof.
  unfold word_line. rewrite str_length_app.
  change (String.length " Word: ") with 7%nat.
  pose proof (strip_length (display_word word guessed_letters)) as Hs.
  rewrite display_word_length in Hs. lia.
Qed.

Lemma left_line_length (i : Z) :
  0 <= i <= MAX_INCORRECT_GUESSES -> String.length (left_line i) = 26%nat.
Proof.
  rewrite max_incorrect_guesses. intros Hi.
  assert (i = 0 \/ i = 1 \/ i = 2 \/ i = 3 \/ i = 4 \/ i = 5 \/ i = 6)
    as Hcases by lia.
  destruct Hcases as [->|[->|[->|[->|[->|[->| ->]]]]]]; reflexivity.
Qed.

(** The content of the screen fits the interior of the frame whenever the
    word, the guessed letters and the message are short enough. *)
Lemma game_content_fits (word : string) (guessed_letters : gset string)
    (i : Z) (message : string) :
  (String.length word <= 34)%nat ->
  (forall x : string, x ∈ guessed_letters -> String.length x = 1%nat) ->
  (size guessed_letters <= 19)%nat ->
  0 <= i <= MAX_INCORRECT_GUESSES ->
  (String.length message <= 67)%nat ->
  exists content : list string,
    game_content word guessed_letters i message = inr content
    /\ length content = 19%nat
    /\ Forall (fun line => (String.length line <= width - 4)%nat) content.
Proof.
  intros Hword Hone Hsize Hi Hmsg.
  destruct (getitem_stage i Hi) as (stage & Hget & _ & Hnine & Hart).
  unfold game_content. rewrite Hget. eexists. split; [reflexivity|]. split.
  - cbn [app length]. rewrite length_app, Hnine. reflexivity.
  - pose proof (word_line_length word guessed_letters) as Hw.
    pose proof (guessed_line_length guessed_letters Hone) as Hg.
    pose proof (left_line_length i Hi) as Hl.
    change (width - 4)%nat with 76%nat.
    apply Forall_app. split.
    { repeat (constructor; [vm_compute; lia|]). constructor. }
    apply Forall_app. split.
    { eapply Forall_impl; [exact Hart|]. intros line Hle. simpl in Hle. lia. }
    constructor; [simpl; lia|].
    constructor; [lia|].
    constructor; [lia|].
    constructor; [lia|].
    constructor; [simpl; lia|].
    constructor.
    { unfold status_line. rewrite str_length_app.
      change (String.length " Status: ") with 9%nat. lia. }
    constructor; [simpl; lia|].
    constructor; [simpl; lia|].
    constructor.
Qed.

Lemma uppercase_letter_length (s : string) :
  uppercase_letter s -> String.length s = 1%nat.
Proof. intros (c & -> & _). reflexivity. Qed.

Lemma invariant_letters (word : string) (hist : list string)
    (st : GameState) (x : string) :
  invariant word hist st -> x ∈ guessed_letters st -> uppercase_letter x.
Proof.
  intros Hinv Hx. rewrite (inv_guessed _ _ _ Hinv) in Hx.
  apply elem_of_list_to_set in Hx.
  pose proof (inv_letters _ _ _ Hinv) as Hall.
  rewrite Forall_forall in Hall. apply Hall. exact Hx.
Qed.

Lemma invariant_nonneg (word : string) (hist : list string) (st : GameState) :
  invariant word hist st -> 0 <= incorrect_guesses st <= MAX_INCORRECT_GUESSES.
Proof.
  intros Hinv. split; [|apply (inv_bound _ _ _ Hinv)].
  rewrite (inv_count _ _ _ Hinv). lia.
Qed.

Lemma invariant_size (word : string) (hist : list string) (st : GameState) :
  invariant word hist st ->
  (size (guessed_letters st)
   <= String.length word + Z.to_nat (incorrect_guesses st))%nat.
Proof.
  intros Hinv. rewrite (inv_count _ _ _ Hinv), Nat2Z.id.
  assert (guessed_letters st
          ⊆ word_letters word ∪ (guessed_letters st ∖ word_letters word))
    as Hsub.
  { intros x Hx. destruct (decide (x ∈ word_letters word)); set_solver. }
  apply subseteq_size in Hsub. rewrite size_union in Hsub by set_solver.
  pose proof (size_list_to_set_le (Py.chars word)) as Hw.
  rewrite chars_length in Hw. unfold word_letters in *. lia.
Qed.

Lemma reachable_content (st : GameState) (message : string) :
  reachable st -> (String.length message <= 67)%nat ->
  exists content : list string,
    game_content (chosen_word st) (guessed_letters st) (incorrect_guesses st)
                 message = inr content
    /\ length content = 19%nat
    /\ Forall (fun line => (String.length line <= width - 4)%nat) content.
Proof.
  intros [hist Hs] Hmsg.
  apply session_invariant in Hs as (word & Hin & Hinv).
  pose proof (word_list_length word Hin) as Hlen.
  pose proof (invariant_nonneg _ _ _ Hinv) as Hi.
  pose proof (invariant_size _ _ _ Hinv) as Hsize.
  rewrite max_incorrect_guesses in Hi.
  apply game_content_fits.
  - rewrite (inv_word _ _ _ Hinv). lia.
  - intros x Hx. apply uppercase_letter_length.
    eapply invariant_letters; eassumption.
  - lia.
  - rewrite max_incorrect_guesses. exact Hi.
  - exact Hmsg.
Qed.

(** ** The validator *)

(** C4: [get_guess] accepts an input line exactly when its upper-case form
    is one character in 'A'..'Z' that is not in the set of guessed
    letters, and then returns that upper-case letter; every other line is
    rejected.  In particular "a" is accepted as "A" on the empty set, and
    "ab", "1" and a repeated "A" are rejected. *)
Theorem validator_accepts :
  (forall (raw : string) (already_guessed : gset string) (guess : string),
      snd (get_guess raw already_guessed) = inr (Some guess) <->
      guess = Py.upper raw /\ uppercase_letter guess
      /\ guess ∉ already_guessed)
  /\ (forall (raw : string) (already_guessed : gset string),
         ~ (uppercase_letter (Py.upper raw)
            /\ Py.upper raw ∉ already_guessed) ->
         snd (get_guess raw already_guessed) = inr None)
  /\ snd (get_guess "a" ∅) = inr (Some "A")
  /\ snd (get_guess "ab" ∅) = inr None
  /\ snd (get_guess "1" ∅) = inr None
  /\ snd (get_guess "A" {[ "A" ]}) = inr None.
Proof.
  split; [exact get_guess_accepts|]. split.
  - intros raw already_guessed Hno. rewrite get_guess_result.
    destruct (invalid_guess (Py.upper raw)) eqn:Hinv; [reflexivity|].
    destruct (decide (Py.upper raw ∈ already_guessed)); [reflexivity|].
    exfalso. apply Hno. split; [|assumption].
    apply invalid_guess_false. exact Hinv.
  - repeat split; vm_compute; reflexivity.
Qed.

(** C5, as the specification words it, fails: a line of two characters
    (reason [InvalidLength]) and a digit (reason [NotALetter]) get the
    same message. *)
Lemma rejection_reasons_share_message :
  spec_rejection "ab" ∅ = Some InvalidLength
  /\ spec_rejection "1" ∅ = Some NotALetter
  /\ printed_message "ab" ∅ = Some (apply_crt_style invalid_message true)
  /\ printed_message "1" ∅ = printed_message "ab" ∅.
Proof. repeat split; vm_compute; reflexivity. Qed.

Lemma guess_loop_rejected (st : GameState) (raw : string)
    (rest : list string) :
  snd (get_guess raw (guessed_letters st)) = inr None ->
  guess_loop st (raw :: rest)
  = (let* _ := show st "Enter your guess..." false in
     let* _ := io_tell (fst (get_guess raw (guessed_letters st))) in
     guess_loop st rest).
Proof.
  intros Hrej. cbn [guess_loop].
  destruct (get_guess raw (guessed_letters st)) as [out r].
  simpl in Hrej. subst r. reflexivity.
Qed.

(** C5, amended: [get_guess] rejects in two ways, each with a message of
    its own.  An upper-cased line that is not one character in 'A'..'Z'
    gets the invalid-input message; a letter that was already guessed gets
    the already-guessed message, which is never equal to the former.
    After either, the game loop shows the screen and asks again, with the
    state unchanged. *)
Theorem rejection_messages (raw : string) (st : GameState)
    (rest : list string) :
  snd (get_guess raw (guessed_letters st)) = inr None ->
  ((~ uppercase_letter (Py.upper raw)
    /\ printed_message raw (guessed_letters st)
       = Some (apply_crt_style invalid_message true))
   \/ (uppercase_letter (Py.upper raw)
       /\ Py.upper raw ∈ guessed_letters st
       /\ printed_message raw (guessed_letters st)
          = Some (apply_crt_style (already_message (Py.upper raw)) true)))
  /\ (forall guess : string,
         apply_crt_style (already_message guess) true
         <> apply_crt_style invalid_message true)
  /\ guess_loop st (raw :: rest)
     = (let* _ := show st "Enter your guess..." false in
        let* _ := io_tell (fst (get_guess raw (guessed_letters st))) in
        guess_loop st rest).
Proof.
  intros Hrej. split; [|split].
  - unfold printed_message, get_guess.
    rewrite get_guess_result in Hrej.
    destruct (invalid_guess (Py.upper raw)) eqn:Hinv.
    + left. split; [|reflexivity].
      intros Hl. apply invalid_guess_false in Hl. congruence.
    + right. apply invalid_guess_false in Hinv.
      destruct (decide (Py.upper raw ∈ guessed_letters st));
        [|discriminate].
      auto.
  - intros guess Heq. vm_compute in Heq. discriminate Heq.
  - apply guess_loop_rejected. exact Hrej.
Qed.

Lemma rejection_messages_witness :
  snd (get_guess "q" (guessed_letters (apply_guess (new_game "RETRO") "Q")))
  = inr None
  /\ guess_loop (apply_guess (new_game "RETRO") "Q") ["q"; "R"]
     = (let* _ := show (apply_guess (new_game "RETRO") "Q")
                       "Enter your guess..." false in
        let* _ := io_tell
                    (fst (get_guess "q"
                            (guessed_letters
                               (apply_guess (new_game "RETRO") "Q")))) in
        guess_loop (apply_guess (new_game "RETRO") "Q") ["R"]).
Proof.
  assert (snd (get_guess "q"
                 (guessed_letters (apply_guess (new_game "RETRO") "Q")))
          = inr None) as Hrej by (vm_compute; reflexivity).
  split; [exact Hrej|].
  exact (proj2 (proj2 (rejection_messages "q"
                         (apply_guess (new_game "RETRO") "Q") ["R"] Hrej))).
Defined.

(** ** Word selection *)

(** C9, as the specification words it, fails: on an empty list the
    selection raises [IndexError], and no [ConfigurationError]. *)
Lemma choose_word_empty_counterexample :
  choose_word [] 0 = inl Py.IndexError
  /\ choose_word [] 0 <> inl (Py.Raise "ConfigurationError").
Proof. split; [reflexivity|discriminate]. Qed.

(** C9, amended: selection picks one word of the list it is given when
    that list is not empty, so it always succeeds on [WORD_LIST]; on an
    empty list it returns no word and raises [IndexError]. *)
Theorem choose_word_picks :
  (forall (word_list : list string) (r : nat),
      word_list <> [] ->
      exists word : string,
        choose_word word_list r = inr word /\ word ∈ word_list)
  /\ (forall r : nat,
         exists word : string,
           choose_word WORD_LIST r = inr word /\ word ∈ WORD_LIST)
  /\ (forall r : nat, choose_word [] r = inl Py.IndexError).
Proof.
  assert (forall (word_list : list string) (r : nat),
             word_list <> [] ->
             exists word : string,
               choose_word word_list r = inr word /\ word ∈ word_list)
    as Hpick.
  { intros word_list r Hne.
    destruct (lookup_lt_is_Some_2 word_list (r mod length word_list)%nat)
      as [word Hword].
    { apply Nat.mod_upper_bound. destruct word_list; [contradiction|].
      discriminate. }
    exists word. split.
    - unfold choose_word, Py.random_choice.
      destruct word_list; [contradiction|]. rewrite Hword. reflexivity.
    - eapply list_elem_of_lookup_2. exact Hword. }
  split; [exact Hpick|]. split; [|reflexivity].
  intros r. apply Hpick. discriminate.
Qed.

Lemma choose_word_picks_witness :
  exists word : string,
    choose_word ["CAT"; "DOG"] 3 = inr word /\ word ∈ ["CAT"; "DOG"].
Proof.
  apply (proj1 choose_word_picks ["CAT"; "DOG"] 3%nat). discriminate.
Defined.

(** ** Sessions *)

Lemma steps_cons (st : GameState) (guess : string) (st1 : GameState)
    (hist : list string) (st2 : GameState) :
  step st guess st1 -> steps st1 hist st2 -> steps st (guess :: hist) st2.
Proof.
  intros Hstep Hsteps. change (guess :: hist) with ([guess] ++ hist).
  eapply steps_trans; [|exact Hsteps].
  change [guess] with ([] ++ [guess]). econstructor; [constructor|exact Hstep].
Qed.

(** [run] follows the transition system. *)
Lemma run_steps (st : GameState) (inputs : list string) :
  steps st (snd (run st inputs)) (fst (run st inputs)).
Proof.
  revert st. induction inputs as [|raw rest IH]; intros st; simpl.
  - constructor.
  - destruct (status st) eqn:Hst; try constructor.
    destruct (snd (get_guess raw (guessed_letters st)))
      as [e|[guess|]] eqn:Hg; try apply IH.
    specialize (IH (apply_guess st guess)).
    destruct (run (apply_guess st guess) rest) as [st' hist]. simpl in *.
    eapply steps_cons; [|exact IH]. econstructor; eassumption.
Qed.

Lemma run_reachable (r : nat) (word : string) (inputs : list string) :
  choose_word WORD_LIST r = inr word ->
  reachable (fst (run (new_game word) inputs)).
Proof.
  intros Hword. exists (snd (run (new_game word) inputs)), r, word.
  split; [exact Hword|apply run_steps].
Qed.

Lemma reachable_bounds (st : GameState) :
  reachable st -> 0 <= incorrect_guesses st <= MAX_INCORRECT_GUESSES.
Proof.
  intros [hist Hs]. apply session_invariant in Hs as (word & _ & Hinv).
  eapply invariant_nonneg. exact Hinv.
Qed.

(** C7: [MAX_INCORRECT_GUESSES] is the number of stages minus one, which
    is 6 and the highest index of [HANGMAN_STAGES]; in every reachable
    state the counter is between 0 and that maximum, so the lookup of the
    stage in [display_game] finds a stage and does not raise. *)
Theorem stage_lookup_in_bounds (st : GameState) :
  reachable st ->
  MAX_INCORRECT_GUESSES = Z.of_nat (length HANGMAN_STAGES) - 1
  /\ MAX_INCORRECT_GUESSES = 6
  /\ is_Some (HANGMAN_STAGES !! Z.to_nat MAX_INCORRECT_GUESSES)
  /\ HANGMAN_STAGES !! S (Z.to_nat MAX_INCORRECT_GUESSES) = None
  /\ 0 <= incorrect_guesses st <= MAX_INCORRECT_GUESSES
  /\ exists stage : string,
       Py.getitem HANGMAN_STAGES (incorrect_guesses st) = inr stage
       /\ HANGMAN_STAGES !! Z.to_nat (incorrect_guesses st) = Some stage.
Proof.
  intros Hreach. pose proof (reachable_bounds st Hreach) as Hb.
  split; [reflexivity|]. split; [reflexivity|].
  split; [eexists; reflexivity|]. split; [reflexivity|].
  split; [exact Hb|].
  destruct (getitem_stage _ Hb) as (stage & Hget & Hlook & _).
  exists stage. auto.
Qed.

Lemma stage_lookup_in_bounds_witness :
  exists stage : string,
    Py.getitem HANGMAN_STAGES
      (incorrect_guesses
         (fst (run (new_game "RETRO") ["q"; "w"; "x"; "z"; "j"; "v"])))
    = inr stage
    /\ HANGMAN_STAGES !! 6%nat = Some stage.
Proof.
  pose proof (stage_lookup_in_bounds
                (fst (run (new_game "RETRO") ["q"; "w"; "x"; "z"; "j"; "v"]))
                (run_reachable 7 "RETRO" _ eq_refl)) as H.
  exact (proj2 (proj2 (proj2 (proj2 (proj2 H))))).
Defined.

Lemma all_guessed_iff (word : string) (guessed : gset string) :
  all_guessed word guessed = true
  <-> forall letter : string, letter ∈ Py.chars word -> letter ∈ guessed.
Proof.
  unfold all_guessed. rewrite forallb_forall. split.
  - intros H letter Hin. apply list_elem_of_In, H in Hin.
    apply bool_decide_eq_true in Hin. exact Hin.
  - intros H letter Hin. apply bool_decide_eq_true, H, list_elem_of_In, Hin.
Qed.

(** C2: the status is [Won] exactly when every letter of the word is in
    the set of guessed letters; it is [Lost] exactly when the counter
    equals [MAX_INCORRECT_GUESSES] and the state is not [Won]; otherwise
    it is [InProgress], and then the top of the game loop goes on to ask
    for a guess, while in the two other cases it shows the final screen
    and ends the session. *)
Theorem status_derived (st : GameState) :
  reachable st ->
  (status st = Won <->
   forall letter : string,
     letter ∈ Py.chars (chosen_word st) -> letter ∈ guessed_letters st)
  /\ (status st = Lost <->
      incorrect_guesses st = MAX_INCORRECT_GUESSES /\ status st <> Won)
  /\ (status st = InProgress <-> status st <> Won /\ status st <> Lost)
  /\ (status st = InProgress ->
      forall continue : io GameState,
        round_start st continue
        = (let* _ := show st "Guess a letter." false in continue))
  /\ (status st <> InProgress ->
      exists message : string,
        forall continue : io GameState,
          round_start st continue
          = (let* _ := show st "Guess a letter." false in
             let* _ := show st message true in
             io_ret st)).
Proof.
  intros Hreach. pose proof (reachable_bounds st Hreach) as Hb.
  rewrite <- all_guessed_iff. unfold round_start, status.
  destruct (all_guessed (chosen_word st) (guessed_letters st)) eqn:Hall;
    [|destruct (MAX_INCORRECT_GUESSES <=? incorrect_guesses st) eqn:Hle;
      [apply Z.leb_le in Hle|apply Z.leb_gt in Hle]];
    repeat match goal with
           | |- _ /\ _ => split
           | |- _ <-> _ => split
           end;
    intros; try reflexivity; try discriminate; try congruence; try lia;
    try (eexists; intros; reflexivity);
    repeat match goal with
           | H : _ /\ _ |- _ => destruct H
           end;
    try contradiction; try (split; [lia|discriminate]);
    try (split; discriminate).
Qed.

Lemma status_derived_witness :
  status (fst (run (new_game "RETRO") ["q"; "w"; "x"; "z"; "j"; "v"])) = Lost
  <-> incorrect_guesses
        (fst (run (new_game "RETRO") ["q"; "w"; "x"; "z"; "j"; "v"]))
      = MAX_INCORRECT_GUESSES
      /\ status (fst (run (new_game "RETRO") ["q"; "w"; "x"; "z"; "j"; "v"]))
         <> Won.
Proof.
  exact (proj1 (proj2 (status_derived
                         (fst (run (new_game "RETRO")
                                   ["q"; "w"; "x"; "z"; "j"; "v"]))
                         (run_reachable 7 "RETRO" _ eq_refl)))).
Defined.

(** C3: in a session, the counter is the number of accepted guesses that
    do not occur in the word: an accepted guess leaves it unchanged when
    the letter occurs in the word and adds exactly 1 when it does not; and
    the counter stays between 0 and [MAX_INCORRECT_GUESSES], before and
    after every guess. *)
Theorem incorrect_count (hist : list string) (st : GameState)
    (guess : string) (st' : GameState) :
  session hist st -> step st guess st' ->
  incorrect_guesses st
  = Z.of_nat (length (filter (fun g => g ∉ Py.chars (chosen_word st)) hist))
  /\ (guess ∈ Py.chars (chosen_word st) ->
      incorrect_guesses st' = incorrect_guesses st)
  /\ (guess ∉ Py.chars (chosen_word st) ->
      incorrect_guesses st' = incorrect_guesses st + 1)
  /\ 0 <= incorrect_guesses st <= MAX_INCORRECT_GUESSES
  /\ 0 <= incorrect_guesses st' <= MAX_INCORRECT_GUESSES.
Proof.
  intros Hs Hstep.
  pose proof (session_extend hist st [guess] st' Hs
                (steps_cons _ _ _ _ _ Hstep (steps_nil st'))) as Hs'.
  assert (0 <= incorrect_guesses st <= MAX_INCORRECT_GUESSES) as Hb
    by (apply reachable_bounds; eexists; exact Hs).
  assert (0 <= incorrect_guesses st' <= MAX_INCORRECT_GUESSES) as Hb'
    by (apply reachable_bounds; eexists; exact Hs').
  apply session_invariant in Hs as (word & _ & Hinv).
  apply step_inversion in Hstep as (-> & _ & (c & -> & _) & _).
  split; [rewrite (inv_word _ _ _ Hinv); apply (inv_misses _ _ _ Hinv)|].
  split; [|split; [|split; assumption]]; intros Hin; simpl.
  - apply contains_letter in Hin. rewrite Hin. reflexivity.
  - destruct (Py.contains (String c EmptyString) (chosen_word st)) eqn:Hc;
      [|reflexivity].
    apply contains_letter in Hc. contradiction.
Qed.

Lemma first_miss_step :
  step (new_game "RETRO") "Q" (apply_guess (new_game "RETRO") "Q").
Proof. apply (step_guess _ _ "q"); vm_compute; reflexivity. Defined.

Lemma new_game_session (r : nat) (word : string) :
  choose_word WORD_LIST r = inr word -> session [] (new_game word).
Proof. intros Hword. exists r, word. split; [exact Hword|constructor]. Defined.

Lemma incorrect_count_witness :
  incorrect_guesses (apply_guess (new_game "RETRO") "Q")
  = incorrect_guesses (new_game "RETRO") + 1.
Proof.
  apply (incorrect_count [] (new_game "RETRO") "Q" _
           (new_game_session 7 "RETRO" eq_refl) first_miss_step).
  vm_compute. intros Hin.
  repeat (apply elem_of_cons in Hin as [Hin|Hin]; [discriminate Hin|]).
  inversion Hin.
Defined.

(** C8: over any further guesses of a session the set of guessed letters
    only grows; it is the set of the accepted guesses, which are pairwise
    different, so each accepted guess is new to the set and adds exactly
    one element; and every element is one character in 'A'..'Z'. *)
Theorem guessed_letters_grow (hist : list string) (st : GameState)
    (more : list string) (st' : GameState) :
  session hist st -> steps st more st' ->
  guessed_letters st ⊆ guessed_letters st'
  /\ guessed_letters st' = guessed_letters st ∪ list_to_set more
  /\ NoDup (hist ++ more)
  /\ (forall guess : string, guess ∈ more -> guess ∉ guessed_letters st)
  /\ size (guessed_letters st') = (size (guessed_letters st) + length more)%nat
  /\ (forall x : string, x ∈ guessed_letters st' -> uppercase_letter x).
Proof.
  intros Hs Hsteps.
  pose proof (session_extend _ _ _ _ Hs Hsteps) as Hs'.
  apply session_invariant in Hs as (word & _ & Hinv).
  apply session_invariant in Hs' as (word' & _ & Hinv').
  pose proof (inv_guessed _ _ _ Hinv) as Hg.
  pose proof (inv_guessed _ _ _ Hinv') as Hg'.
  pose proof (inv_nodup _ _ _ Hinv') as Hnd.
  assert (forall guess : string, guess ∈ more -> guess ∉ guessed_letters st)
    as Hnew.
  { intros guess Hin Hold. rewrite Hg in Hold.
    apply elem_of_list_to_set in Hold.
    apply NoDup_app in Hnd as (_ & Hdisj & _). eapply Hdisj; eassumption. }
  split; [rewrite Hg, Hg'; set_solver|].
  split; [rewrite Hg, Hg'; set_solver|].
  split; [exact Hnd|]. split; [exact Hnew|]. split.
  - rewrite Hg, Hg'. apply NoDup_app in Hnd as (Hnd1 & _ & Hnd2).
    rewrite list_to_set_app_L, size_union.
    + rewrite !size_list_to_set by assumption. reflexivity.
    + intros x Hx Hx'. apply elem_of_list_to_set in Hx'.
      apply (Hnew x Hx'). rewrite Hg. exact Hx.
  - intros x Hx. eapply invariant_letters; eassumption.
Qed.

Lemma guessed_letters_grow_witness :
  size (guessed_letters (apply_guess (new_game "RETRO") "Q"))
  = (size (guessed_letters (new_game "RETRO")) + length ["Q"])%nat.
Proof.
  apply (guessed_letters_grow [] (new_game "RETRO") ["Q"] _
           (new_game_session 7 "RETRO" eq_refl)
           (steps_cons _ _ _ _ _ first_miss_step (steps_nil _))).
Defined.

Lemma content_lookup (a b : string) (art tail : list string) (x : string) :
  length art = 9%nat -> tail !! 2%nat = Some x ->
  ([a; b] ++ art ++ tail) !! 13%nat = Some x.
Proof.
  intros Hnine Hx.
  do 9 (destruct art as [|? art]; [discriminate|]).
  destruct art; [exact Hx|discriminate].
Qed.

(** C10: no reachable state has the space among its guessed letters, so
    removing it changes nothing, and the line of guessed letters on the
    screen is the whole set, sorted in ascending order and joined by a
    comma and a space. *)
Theorem guessed_line_whole_set (st : GameState) (message : string) :
  reachable st ->
  (" " ∉ guessed_letters st)
  /\ guessed_letters st ∖ {[ " " ]} = guessed_letters st
  /\ guessed_line (guessed_letters st)
     = " Guessed Letters: "
         +:+ Py.join ", " (Py.sorted (guessed_letters st))
  /\ Sorted String.le (Py.sorted (guessed_letters st))
  /\ Py.sorted (guessed_letters st) ≡ₚ elements (guessed_letters st)
  /\ exists content : list string,
       game_content (chosen_word st) (guessed_letters st)
                    (incorrect_guesses st) message = inr content
       /\ content !! 13%nat = Some (guessed_line (guessed_letters st)).
Proof.
  intros Hreach. pose proof (reachable_bounds st Hreach) as Hb.
  destruct Hreach as [hist Hs].
  apply session_invariant in Hs as (word & _ & Hinv).
  assert (" " ∉ guessed_letters st) as Hspace.
  { intros Hin. eapply invariant_letters in Hin; [|exact Hinv].
    destruct Hin as (c & [= <-] & Hr). vm_compute in Hr. lia. }
  assert (guessed_letters st ∖ {[ " " ]} = guessed_letters st) as Hsame
    by set_solver.
  split; [exact Hspace|]. split; [exact Hsame|].
  split; [unfold guessed_line; rewrite Hsame; reflexivity|].
  split; [apply Sorted_merge_sort; apply _|].
  split; [apply merge_sort_Permutation|].
  destruct (getitem_stage _ Hb) as (stage & Hget & _ & Hnine & _).
  unfold game_content. rewrite Hget. eexists. split; [reflexivity|].
  apply content_lookup; [exact Hnine|reflexivity].
Qed.

Lemma guessed_line_whole_set_witness :
  guessed_line
    (guessed_letters (fst (run (new_game "RETRO") ["q"; "r"; "1"; "e"])))
  = " Guessed Letters: "
      +:+ Py.join ", "
            (Py.sorted
               (guessed_letters
                  (fst (run (new_game "RETRO") ["q"; "r"; "1"; "e"])))).
Proof.
  exact (proj1 (proj2 (proj2 (guessed_line_whole_set
                                (fst (run (new_game "RETRO")
                                          ["q"; "r"; "1"; "e"]))
                                "Guess a letter."
                                (run_reachable 7 "RETRO" _ eq_refl))))).
Defined.

(** ** The composed frame *)

(** At the start of a session on "PYTHON", a status message of 70
    characters is shorter than the interior of the frame, and yet its row
    is wider than 80 characters, because [ljust] never truncates. *)
Lemma frame_long_message_counterexample :
  reachable (new_game "PYTHON")
  /\ (String.length (Py.str_mul "x" 70) < interior_width)%nat
  /\ exists rows : list (string * bool),
       game_rows "PYTHON" ∅ 0 (Py.str_mul "x" 70) = inr rows
       /\ (String.length <$> (fst <$> rows)) !! 17%nat = Some 83%nat
       /\ ~ well_sized rows.
Proof.
  split; [exists []; apply (new_game_session 0); reflexivity|].
  split; [vm_compute; lia|].
  eexists. split; [vm_compute; reflexivity|].
  split; [vm_compute; reflexivity|].
  intros [_ Hall].
  eapply (Forall_lookup_1 _ _ 17%nat) in Hall; [|vm_compute; reflexivity].
  vm_compute in Hall. discriminate Hall.
Qed.

(** Measured by the length of the row strings, with the codes written
    into the title counted as characters: for every reachable state and
    every status message of at most 67 characters, the frame is a top
    border row, one row "| line |" for each of the 22 content lines padded
    to 76 characters, and a bottom border row, 24 strings of length 80. *)
Lemma frame_well_sized (st : GameState) (message : string) :
  reachable st -> (String.length message <= 67)%nat ->
  exists (content : list string) (rows : list (string * bool)),
    game_content (chosen_word st) (guessed_letters st)
                 (incorrect_guesses st) message = inr content
    /\ game_rows (chosen_word st) (guessed_letters st)
                 (incorrect_guesses st) message = inr rows
    /\ game_frame (chosen_word st) (guessed_letters st)
                  (incorrect_guesses st) message
       = inr (map (fun row => apply_crt_style (fst row) (snd row)) rows)
    /\ rows
       = [("+" +:+ Py.str_mul "-" 78 +:+ "+", false)]
         ++ map (fun line => ("| " +:+ line +:+ " |", true))
                (fill_lines (pad_lines content))
         ++ [("+" +:+ Py.str_mul "-" 78 +:+ "+", false)]
    /\ length (fill_lines (pad_lines content)) = 22%nat
    /\ Forall (fun line => String.length line = 76%nat)
              (fill_lines (pad_lines content))
    /\ length rows = 24%nat
    /\ Forall (fun row => String.length (fst row) = 80%nat) rows.
Proof.
  intros Hreach Hmsg.
  destruct (reachable_content st message Hreach Hmsg)
    as (content & Hcontent & Hlen & Hfit).
  exists content, (frame_rows content).
  unfold game_rows, game_frame. rewrite Hcontent.
  split; [reflexivity|]. split; [reflexivity|]. split; [reflexivity|].
  split; [reflexivity|].
  split.
  { apply fill_lines_length. unfold pad_lines. rewrite length_map, Hlen.
    simpl. lia. }
  split; [apply fill_pad_width, Hfit|].
  apply frame_rows_well_sized; [rewrite Hlen; simpl; lia|exact Hfit].
Qed.

Lemma frame_well_sized_witness :
  exists (content : list string) (rows : list (string * bool)),
    game_content "RETRO" ({[ "E" ]} ∪ ({[ "Q" ]} ∪ ∅)) 1
                 "Good guess! 'E' is in the word." = inr content
    /\ game_rows "RETRO" ({[ "E" ]} ∪ ({[ "Q" ]} ∪ ∅)) 1
                 "Good guess! 'E' is in the word." = inr rows
    /\ length rows = 24%nat
    /\ Forall (fun row => String.length (fst row) = 80%nat) rows.
Proof.
  destruct (frame_well_sized
              (fst (run (new_game "RETRO") ["q"; "e"]))
              "Good guess! 'E' is in the word."
              (run_reachable 7 "RETRO" _ eq_refl)
              ltac:(vm_compute; lia))
    as (content & rows & H1 & H2 & _ & _ & _ & _ & H3 & H4).
  exists content, rows. auto.
Defined.

(** C1 fails on the code.  On the first screen of a session
    ([display_game] on the chosen word, no guessed letter, no miss and the
    message "Guess a letter.") the frame has 24 rows and every row is a
    string of 80 characters, but 8 of the 80 characters of the title row
    are the bright and reset codes that [display_game] writes into the
    title before the line is padded: on the terminal, and before any
    styling, the title row is 72 columns wide, not 80, and its right
    border stands 8 columns to the left of the others. *)
Theorem title_row_narrow :
  reachable (new_game "RETRO")
  /\ (String.length "Guess a letter." < interior_width)%nat
  /\ exists rows : list (string * bool),
       game_rows "RETRO" ∅ 0 "Guess a letter." = inr rows
       /\ length rows = 24%nat
       /\ rows !! 1%nat = Some (title_row, true)
       /\ String.length title_row = 80%nat
       /\ columns title_row = 72%nat
       /\ title_row
          = "| " +:+ Py.str_mul " " 15 +:+ Colorama.Style_BRIGHT
              +:+ "--- HANGMAN CRT EDITION ---" +:+ Colorama.Style_RESET_ALL
              +:+ Py.str_mul " " 26 +:+ " |"
       /\ (columns <$> (fst <$> rows))
          = [80; 72; 80; 80; 80; 80; 80; 80; 80; 80; 80; 80;
             80; 80; 80; 80; 80; 80; 80; 80; 80; 80; 80; 80]%nat.
Proof.
  split; [exists []; apply (new_game_session 7); reflexivity|].
  split; [vm_compute; lia|].
  eexists. split; [vm_compute; reflexivity|].
  repeat split; vm_compute; reflexivity.
Qed.

(** ** The masked word *)

Lemma str_app_nil_r (s : string) : s +:+ EmptyString = s.
Proof.
  induction s as [|c s IH]; [reflexivity|].
  change (String c s +:+ EmptyString) with (String c (s +:+ EmptyString)).
  now rewrite IH.
Qed.

Lemma str_app_assoc (s1 s2 s3 : string) :
  (s1 +:+ s2) +:+ s3 = s1 +:+ (s2 +:+ s3).
Proof.
  induction s1 as [|c s1 IH]; [reflexivity|].
  change ((String c s1 +:+ s2) +:+ s3) with (String c ((s1 +:+ s2) +:+ s3)).
  change (String c s1 +:+ (s2 +:+ s3)) with (String c (s1 +:+ (s2 +:+ s3))).
  now rewrite IH.
Qed.

(** One letter of the masked word. *)
Lemma display_word_from (guessed_letters : gset string)
    (letters : list string) (acc : string) :
  foldl (fun acc letter =>
           if decide (letter ∈ guessed_letters)
           then acc +:+ (letter +:+ " ")
           else acc +:+ "_ ") acc letters
  = acc +:+ foldl (fun acc letter =>
                     if decide (letter ∈ guessed_letters)
                     then acc +:+ (letter +:+ " ")
                     else acc +:+ "_ ") EmptyString letters.
Proof.
  revert acc. induction letters as [|letter letters IH]; intros acc; simpl.
  - now rewrite str_app_nil_r.
  - destruct (decide (letter ∈ guessed_letters)).
    + rewrite (IH (acc +:+ _)), (IH (EmptyString +:+ _)).
      rewrite str_app_assoc. reflexivity.
    + rewrite (IH (acc +:+ _)), (IH (EmptyString +:+ _)).
      rewrite str_app_assoc. reflexivity.
Qed.

Lemma display_word_cons (c : ascii) (word : string)
    (guessed_letters : gset string) :
  display_word (String c word) guessed_letters
  = (if decide (String c EmptyString ∈ guessed_letters)
     then String c " " else "_ ")
      +:+ display_word word guessed_letters.
Proof.
  unfold display_word. cbn [Py.chars foldl].
  rewrite display_word_from.
  destruct (decide (String c EmptyString ∈ guessed_letters)); reflexivity.
Qed.

Lemma uppercase_not_space (c : ascii) :
  (65 <= nat_of_ascii c <= 90)%nat -> Py.isspace c = false.
Proof.
  destruct c as [[] [] [] [] [] [] [] []]; vm_compute; intros [H1 H2];
    try reflexivity; lia.
Qed.

Lemma rstrip_cons_nonspace (x : ascii) (s : string) :
  Py.isspace x = false ->
  exists rest : string, Py.rstrip (String x s) = String x rest.
Proof.
  intros Hx. simpl. destruct (Py.rstrip s); [rewrite Hx|]; eauto.
Qed.

Lemma rstrip_masked (guessed_letters : gset string) (word : string)
    (x : ascii) :
  Forall uppercase_letter (Py.chars word) -> Py.isspace x = false ->
  Py.rstrip (String x (String " " (display_word word guessed_letters)))
    +:+ " "
  = String x (String " " (display_word word guessed_letters)).
Proof.
  revert x. induction word as [|c word IH]; intros x Hall Hx.
  - change (display_word EmptyString guessed_letters) with EmptyString.
    change (Py.rstrip (String x (String " " EmptyString)))
      with (if Py.isspace x then EmptyString else String x EmptyString).
    rewrite Hx. reflexivity.
  - inversion Hall as [|? ? Hup Hrest]; subst.
    destruct Hup as (c' & Heq & Hc). injection Heq as <-.
    rewrite display_word_cons.
    set (y := if decide (String c EmptyString ∈ guessed_letters)
              then c else "_"%char).
    assert (Py.isspace y = false) as Hy.
    { unfold y. destruct (decide _); [apply uppercase_not_space, Hc
                                      |reflexivity]. }
    replace ((if decide (String c EmptyString ∈ guessed_letters)
              then String c " " else "_ ")
               +:+ display_word word guessed_letters)
      with (String y (String " " (display_word word guessed_letters)))
      by (unfold y; destruct (decide _); reflexivity).
    specialize (IH y Hrest Hy).
    destruct (rstrip_cons_nonspace y
                (String " " (display_word word guessed_letters)) Hy)
      as [rest Hrest'].
    rewrite Hrest' in IH.
    change (Py.rstrip (String x (String " " ?s)))
      with (match Py.rstrip (String " " s) with
            | EmptyString =>
                if Py.isspace x then EmptyString else String x EmptyString
            | String d r => String x (String d r)
            end).
    change (Py.rstrip (String " " ?s))
      with (match Py.rstrip s with
            | EmptyString => EmptyString
            | String d r => String " " (String d r)
            end).
    rewrite Hrest'.
    change (String x (String " " (String y rest)) +:+ " ")
      with (String x (String " " (String y rest +:+ " "))).
    rewrite IH. reflexivity.
Qed.

(** C6: the masked word is built letter by letter, each letter of the
    word giving the letter and a space if it has been guessed and an
    underscore and a space if not; the screen shows it without the final
    space.  For "CAT" the screen shows "C _ _" after C, "C A _" after C
    and A, and "C A T" after C, A and T. *)
Theorem masked_word :
  (forall guessed_letters : gset string,
      display_word EmptyString guessed_letters = EmptyString)
  /\ (forall (c : ascii) (word : string) (guessed_letters : gset string),
         display_word (String c word) guessed_letters
         = (if decide (String c EmptyString ∈ guessed_letters)
            then String c " " else "_ ")
             +:+ display_word word guessed_letters)
  /\ (forall (word : string) (guessed_letters : gset string),
         word <> EmptyString -> Forall uppercase_letter (Py.chars word) ->
         word_line word guessed_letters +:+ " "
         = " Word: " +:+ display_word word guessed_letters)
  /\ word_line "CAT" {[ "C" ]} = " Word: C _ _"
  /\ word_line "CAT" ({[ "A" ]} ∪ {[ "C" ]}) = " Word: C A _"
  /\ word_line "CAT" ({[ "T" ]} ∪ ({[ "A" ]} ∪ {[ "C" ]})) = " Word: C A T".
Proof.
  split; [reflexivity|]. split; [exact display_word_cons|]. split.
  - intros [|c word] guessed_letters Hne Hall; [contradiction|].
    unfold word_line. rewrite str_app_assoc. f_equal.
    inversion Hall as [|? ? Hup Hrest]; subst.
    destruct Hup as (c' & Heq & Hc). injection Heq as <-.
    rewrite display_word_cons.
    set (y := if decide (String c EmptyString ∈ guessed_letters)
              then c else "_"%char).
    assert (Py.isspace y = false) as Hy.
    { unfold y. destruct (decide _); [apply uppercase_not_space, Hc
                                      |reflexivity]. }
    replace ((if decide (String c EmptyString ∈ guessed_letters)
              then String c " " else "_ ")
               +:+ display_word word guessed_letters)
      with (String y (String " " (display_word word guessed_letters)))
      by (unfold y; destruct (decide _); reflexivity).
    unfold Py.strip. cbn [Py.lstrip]. rewrite Hy.
    apply rstrip_masked; assumption.
  - repeat split; vm_compute; reflexivity.
Qed.

Lemma masked_word_witness :
  word_line "PIXEL" {[ "X" ]} +:+ " "
  = " Word: " +:+ display_word "PIXEL" {[ "X" ]}.
Proof.
  apply (proj1 (proj2 (proj2 masked_word))); [discriminate|].
  repeat constructor; eexists; (split; [reflexivity|vm_compute; lia]).
Defined.

(** ** The game loop follows the transition system *)

Lemma io_bind_snd {A B : Type} (m : io A) (f : A -> io B) :
  snd (io_bind m f)
  = match snd m with
    | inl e => inl e
    | inr a => snd (f a)
    end.
Proof.
  destruct m as [out [e|a]]; simpl; [reflexivity|].
  destruct (f a) as [out' r]. reflexivity.
Qed.

Lemma show_returns (st : GameState) (message : string) (skip_effect : bool) :
  reachable st -> snd (show st message skip_effect) = inr tt.
Proof.
  intros Hreach. pose proof (reachable_bounds st Hreach) as Hb.
  destruct (getitem_stage _ Hb) as (stage & Hget & _).
  unfold show, display_game, game_frame, game_content. rewrite Hget.
  destruct skip_effect; reflexivity.
Qed.

Lemma report_guess_returns (st : GameState) (guess : string) :
  reachable st -> snd (report_guess st guess) = inr tt.
Proof.
  intros Hreach. unfold report_guess. rewrite io_bind_snd.
  destruct (negb _); rewrite show_returns by assumption; reflexivity.
Qed.

Lemma step_reachable (st : GameState) (guess : string) (st' : GameState) :
  reachable st -> step st guess st' -> reachable st'.
Proof.
  intros [hist Hs] Hstep. exists (hist ++ [guess]).
  eapply session_extend; [exact Hs|].
  eapply steps_cons; [exact Hstep|constructor].
Qed.

Lemma run_finished (st : GameState) (inputs : list string) :
  status st <> InProgress -> run st inputs = (st, []).
Proof.
  intros Hst. destruct inputs as [|raw rest]; [reflexivity|]. simpl.
  destruct (status st); [contradiction|reflexivity|reflexivity].
Qed.

(** From a running state, the game loop returns the state that [run]
    computes if the lines suffice to end the game, and raises [EOFError]
    at the end of the input if they do not. *)
Lemma guess_loop_run (inputs : list string) (st : GameState) :
  reachable st -> status st = InProgress ->
  snd (guess_loop st inputs)
  = match status (fst (run st inputs)) with
    | InProgress => inl Py.EOFError
    | _ => inr (fst (run st inputs))
    end.
Proof.
  revert st. induction inputs as [|raw rest IH]; intros st Hreach Hst.
  - cbn [guess_loop run fst]. rewrite Hst, io_bind_snd, show_returns by assumption.
    reflexivity.
  - cbn [guess_loop run]. rewrite Hst, io_bind_snd, show_returns by assumption.
    rewrite io_bind_snd.
    destruct (snd (get_guess raw (guessed_letters st)))
      as [e|[guess|]] eqn:Hg.
    + rewrite get_guess_result in Hg. discriminate Hg.
    + assert (step st guess (apply_guess st guess)) as Hstep
        by (econstructor; eassumption).
      pose proof (step_reachable _ _ _ Hreach Hstep) as Hreach'.
      cbv zeta. rewrite io_bind_snd, report_guess_returns by assumption.
      unfold round_start.
      rewrite io_bind_snd, show_returns by assumption.
      destruct (status (apply_guess st guess)) eqn:Hst'.
      * rewrite IH by assumption.
        destruct (run (apply_guess st guess) rest) as [st'' hist].
        reflexivity.
      * rewrite io_bind_snd, show_returns by assumption.
        rewrite run_finished by congruence. cbn [fst io_ret snd].
        rewrite Hst'. reflexivity.
      * rewrite io_bind_snd, show_returns by assumption.
        rewrite run_finished by congruence. cbn [fst io_ret snd].
        rewrite Hst'. reflexivity.
    + apply IH; assumption.
Qed.

(** A session on a word of the list either ends in the final state of
    [run], which is reachable and not [InProgress], or runs out of input;
    it never fails on the lookup of the stage. *)
Lemma play_session_run (r : nat) (word : string) (inputs : list string) :
  choose_word WORD_LIST r = inr word ->
  reachable (fst (run (new_game word) inputs))
  /\ snd (play_session word inputs)
     = match status (fst (run (new_game word) inputs)) with
       | InProgress => inl Py.EOFError
       | _ => inr (fst (run (new_game word) inputs))
       end.
Proof.
  intros Hword. split; [eapply run_reachable; exact Hword|].
  assert (reachable (new_game word)) as Hreach
    by (exists []; eapply new_game_session; exact Hword).
  unfold play_session, round_start.
  rewrite io_bind_snd, show_returns by assumption.
  destruct (status (new_game word)) eqn:Hst.
  - apply guess_loop_run; assumption.
  - rewrite io_bind_snd, show_returns by assumption.
    rewrite run_finished by congruence. cbn [fst io_ret snd].
    rewrite Hst. reflexivity.
  - rewrite io_bind_snd, show_returns by assumption.
    rewrite run_finished by congruence. cbn [fst io_ret snd].
    rewrite Hst. reflexivity.
Qed.

(** ** Sessions on a word of the list *)

(** The title line carries its own bright and reset codes: 15 spaces, 4
    characters of code, the 27 characters of the title, 4 of code. *)
Example title_line_length :
  String.length title_line = (15 + 4 + 27 + 4)%nat.
Proof. reflexivity. Qed.

(** Four good guesses win a session on "RETRO", with no miss. *)
Example retro_won :
  let st := fst (run (new_game "RETRO") ["r"; "e"; "t"; "o"]) in
  status st = Won
  /\ incorrect_guesses st = 0
  /\ word_line (chosen_word st) (guessed_letters st) = " Word: R E T R O"
  /\ guessed_line (guessed_letters st) = " Guessed Letters: E, O, R, T"
  /\ snd (run (new_game "RETRO") ["r"; "e"; "t"; "o"]) = ["R"; "E"; "T"; "O"].
Proof. repeat split; vm_compute; reflexivity. Qed.

(** Six misses lose it, the sixth one exactly; rejected lines in between
    change nothing, and lines after the end are not read. *)
Example retro_lost :
  let st := fst (run (new_game "RETRO")
                     ["q"; "w"; "qq"; "x"; "7"; "z"; "q"; "j"; "v"; "r"]) in
  status st = Lost
  /\ incorrect_guesses st = MAX_INCORRECT_GUESSES
  /\ status (fst (run (new_game "RETRO") ["q"; "w"; "x"; "z"; "j"]))
     = InProgress
  /\ word_line (chosen_word st) (guessed_letters st) = " Word: _ _ _ _ _"
  /\ left_line (incorrect_guesses st) = " Incorrect Guesses Left: 0".
Proof. repeat split; vm_compute; reflexivity. Qed.

(** The same sessions through the game loop: the first ends with the
    state of [run], the second stops at the end of the input. *)
Example retro_sessions :
  snd (play_session "RETRO" ["r"; "e"; "t"; "o"])
  = inr (fst (run (new_game "RETRO") ["r"; "e"; "t"; "o"]))
  /\ snd (play_session "RETRO" ["q"; "w"]) = inl Py.EOFError.
Proof.
  split.
  - exact (proj2 (play_session_run 7 "RETRO" ["r"; "e"; "t"; "o"] eq_refl)).
  - exact (proj2 (play_session_run 7 "RETRO" ["q"; "w"] eq_refl)).
Qed.

(** ** The frame of any content *)

Lemma map_lookup {A B : Type} (f : A -> B) (l : list A) (i : nat) :
  map f l !! i = f <$> (l !! i).
Proof.
  revert i. induction l as [|x l IH]; intros [|i]; simpl; auto.
Qed.

Lemma lookup_tail {A : Type} (x : A) (l : list A) (i : nat) :
  (x :: l) !! S i = l !! i.
Proof. reflexivity. Qed.

Lemma ljust_length (s : string) (w : nat) :
  String.length (Py.ljust s w) = Nat.max (String.length s) w.
Proof.
  destruct (Nat.le_gt_cases (String.length s) w) as [Hle|Hgt].
  - rewrite length_ljust by exact Hle. lia.
  - rewrite length_ljust_long by exact Hgt. lia.
Qed.

Lemma fill_lines_length_max (lines : list string) :
  length (fill_lines lines) = Nat.max (length lines) (height - 2).
Proof. unfold fill_lines. rewrite length_app, length_replicate. lia. Qed.

Lemma frame_rows_cons (content_lines : list string) :
  frame_rows content_lines
  = ("+" +:+ Py.str_mul "-" 78 +:+ "+", false)
      :: map (fun line => ("| " +:+ line +:+ " |", true))
             (fill_lines (pad_lines content_lines))
      ++ [("+" +:+ Py.str_mul "-" 78 +:+ "+", false)].
Proof. reflexivity. Qed.

Lemma frame_rows_count (content_lines : list string) :
  length (frame_rows content_lines)
  = (Nat.max (length content_lines) 22 + 2)%nat.
Proof.
  rewrite frame_rows_cons. cbn [length].
  rewrite length_app, length_map, fill_lines_length_max. unfold pad_lines.
  rewrite length_map. simpl. lia.
Qed.

Lemma frame_rows_row (content_lines : list string) (i : nat) (line : string) :
  content_lines !! i = Some line ->
  frame_rows content_lines !! S i
  = Some ("| " +:+ (line +:+ Py.str_mul " " (76 - String.length line))
            +:+ " |", true).
Proof.
  intros Hline. rewrite frame_rows_cons, lookup_tail.
  assert (i < length content_lines)%nat as Hi
    by (eapply lookup_lt_Some; exact Hline).
  assert (length (pad_lines content_lines) = length content_lines) as Hpad
    by (unfold pad_lines; apply length_map).
  rewrite lookup_app_l
    by (rewrite length_map, fill_lines_length_max, Hpad; lia).
  rewrite map_lookup. unfold fill_lines.
  rewrite lookup_app_l by (rewrite Hpad; exact Hi).
  unfold pad_lines. rewrite map_lookup, Hline. reflexivity.
Qed.

(** A frame of 24 rows of 80 characters has at most 22 content lines of
    at most 76 characters. *)
Lemma well_sized_fits (content_lines : list string) :
  well_sized (frame_rows content_lines) ->
  (length content_lines <= 22)%nat
  /\ Forall (fun line => (String.length line <= 76)%nat) content_lines.
Proof.
  intros [Hrows Hwidth].
  rewrite frame_rows_count in Hrows. change height with 24%nat in Hrows.
  split; [lia|].
  apply Forall_lookup. intros i line Hline.
  pose proof (frame_rows_row content_lines i line Hline) as Hi.
  eapply Forall_lookup_1 in Hwidth; [|exact Hi].
  cbn [fst] in Hwidth. rewrite !str_length_app, length_str_mul in Hwidth.
  change width with 80%nat in Hwidth.
  change (String.length "| ") with 2%nat in Hwidth.
  change (String.length " |") with 2%nat in Hwidth.
  change (String.length " ") with 1%nat in Hwidth. lia.
Qed.

(** X1: [draw_border_and_content] never drops, reorders or truncates a
    content line.  The rows are the border, then one row per content line
    (the line itself, spaces up to 76 characters if it is shorter, between
    "| " and " |"), then blank rows up to 22 if there are fewer lines, then
    the border again: [max (number of lines) 22 + 2] rows in all. *)
Theorem frame_rows_shape (content_lines : list string) :
  length (frame_rows content_lines)
  = (Nat.max (length content_lines) 22 + 2)%nat
  /\ length (draw_border_and_content content_lines)
     = (Nat.max (length content_lines) 22 + 2)%nat
  /\ frame_rows content_lines !! 0%nat
     = Some ("+" +:+ Py.str_mul "-" 78 +:+ "+", false)
  /\ frame_rows content_lines !! S (Nat.max (length content_lines) 22)
     = Some ("+" +:+ Py.str_mul "-" 78 +:+ "+", false)
  /\ (forall (i : nat) (line : string),
         content_lines !! i = Some line ->
         frame_rows content_lines !! S i
         = Some ("| " +:+ (line +:+ Py.str_mul " " (76 - String.length line))
                   +:+ " |", true))
  /\ (forall i : nat,
         (length content_lines <= i < 22)%nat ->
         frame_rows content_lines !! S i
         = Some ("| " +:+ Py.str_mul " " 76 +:+ " |", true)).
Proof.
  pose proof (frame_rows_count content_lines) as Hrows.
  assert (length (map (fun line : string => ("| " +:+ line +:+ " |", true))
                      (fill_lines (pad_lines content_lines)))
          = Nat.max (length content_lines) 22) as Hlen.
  { rewrite length_map, fill_lines_length_max. unfold pad_lines.
    rewrite length_map. reflexivity. }
  split; [exact Hrows|].
  split; [unfold draw_border_and_content; rewrite length_map; exact Hrows|].
  split; [reflexivity|].
  split; [|split; [apply frame_rows_row|]]; rewrite frame_rows_cons.
  - rewrite lookup_tail.
    rewrite lookup_app_r by (rewrite Hlen; lia).
    rewrite Hlen, Nat.sub_diag. reflexivity.
  - intros i Hi. rewrite lookup_tail.
    rewrite lookup_app_l by (rewrite Hlen; lia).
    rewrite map_lookup. unfold fill_lines.
    assert (length (pad_lines content_lines) = length content_lines) as Hpad
      by (unfold pad_lines; apply length_map).
    rewrite lookup_app_r by (rewrite Hpad; lia).
    rewrite lookup_replicate_2 by (rewrite Hpad; simpl; lia).
    reflexivity.
Qed.

Lemma frame_rows_shape_witness :
  frame_rows ["ab"; "c"] !! 2%nat
  = Some ("| " +:+ ("c" +:+ Py.str_mul " " 75) +:+ " |", true).
Proof.
  exact (proj1 (proj2 (proj2 (proj2 (proj2 (frame_rows_shape ["ab"; "c"])))))
           1%nat "c" eq_refl).
Defined.

(** X2: the frame that [draw_border_and_content] builds has exactly 24
    rows of exactly 80 characters if and only if there are at most 22
    content lines and none is longer than 76 characters. *)
Theorem frame_well_sized_iff (content_lines : list string) :
  well_sized (frame_rows content_lines)
  <-> (length content_lines <= 22)%nat
      /\ Forall (fun line => (String.length line <= 76)%nat) content_lines.
Proof.
  split.
  - apply well_sized_fits.
  - intros [Hlen Hfit]. apply frame_rows_well_sized; assumption.
Qed.

(** ** The screen in any state *)

Lemma getitem_inr {A : Type} (l : list A) (i : Z) (x : A) :
  Py.getitem l i = inr x ->
  - Z.of_nat (length l) <= i < Z.of_nat (length l) /\ x ∈ l.
Proof.
  unfold Py.getitem.
  destruct (i <? 0) eqn:Hneg;
    [apply Z.ltb_lt in Hneg|apply Z.ltb_ge in Hneg];
    match goal with
    | |- context [(0 <=? ?j) && (?j <? ?n)] =>
        destruct ((0 <=? j) && (j <? n)) eqn:Hin; [|discriminate];
        apply andb_true_iff in Hin as [H0 H1];
        apply Z.leb_le in H0; apply Z.ltb_lt in H1;
        destruct (l !! Z.to_nat j) as [y|] eqn:Hy; [|discriminate]
    end;
    intros [= <-]; (split; [lia|eapply list_elem_of_lookup_2; exact Hy]).
Qed.

Lemma getitem_inl {A : Type} (l : list A) (i : Z) (e : Py.exn) :
  Py.getitem l i = inl e ->
  e = Py.IndexError /\ (i < - Z.of_nat (length l) \/ Z.of_nat (length l) <= i).
Proof.
  unfold Py.getitem.
  destruct (i <? 0) eqn:Hneg;
    [apply Z.ltb_lt in Hneg|apply Z.ltb_ge in Hneg];
    match goal with
    | |- context [(0 <=? ?j) && (?j <? ?n)] =>
        destruct ((0 <=? j) && (j <? n)) eqn:Hin;
        [apply andb_true_iff in Hin as [H0 H1];
         apply Z.leb_le in H0; apply Z.ltb_lt in H1;
         destruct (lookup_lt_is_Some_2 l (Z.to_nat j)) as [y Hy]; [lia|];
         rewrite Hy; discriminate
        |apply andb_false_iff in Hin as [H0|H1];
         [apply Z.leb_gt in H0|apply Z.ltb_ge in H1];
         intros [= <-]; (split; [reflexivity|lia])]
    end.
Qed.

Lemma stage_lines (stage : string) :
  stage ∈ HANGMAN_STAGES -> length (Py.split "010" stage) = 9%nat.
Proof.
  intros Hin. unfold HANGMAN_STAGES in Hin.
  repeat (apply elem_of_cons in Hin as [->|Hin]; [reflexivity|]).
  inversion Hin.
Qed.

(** X3: whatever the word, the guessed letters, the counter and the
    message, a screen that [display_game] can build has 19 content lines
    and so exactly 24 rows: a long message or word can make a row wider,
    never the frame taller. *)
Theorem game_rows_height (word : string) (guessed : gset string) (i : Z)
    (message : string) (rows : list (string * bool)) :
  game_rows word guessed i message = inr rows ->
  length rows = 24%nat
  /\ exists content : list string,
       game_content word guessed i message = inr content
       /\ length content = 19%nat.
Proof.
  unfold game_rows, game_content.
  destruct (Py.getitem HANGMAN_STAGES i) as [e|stage] eqn:Hget;
    [discriminate|].
  apply getitem_inr in Hget as [_ Hin]. apply stage_lines in Hin.
  cbv zeta. intros [= <-].
  match goal with
  | |- length (frame_rows ?content) = _ /\ _ =>
      assert (length content = 19%nat) as Hlen
        by (cbn [app length]; rewrite length_app, Hin; reflexivity)
  end.
  split; [|eexists; split; [reflexivity|exact Hlen]].
  rewrite frame_rows_count, Hlen. reflexivity.
Qed.

Lemma game_rows_height_witness :
  exists rows : list (string * bool),
    game_rows "PROGRAMMING" ∅ (-1) (Py.str_mul "x" 200) = inr rows
    /\ length rows = 24%nat.
Proof.
  eexists. split; [reflexivity|].
  apply (game_rows_height "PROGRAMMING" ∅ (-1) (Py.str_mul "x" 200) _ eq_refl).
Defined.

(** ** What [display_game] writes *)

Lemma printed_app (out out' : list event) :
  printed (out ++ out') = printed out ++ printed out'.
Proof. unfold printed. apply omap_app. Qed.

Lemma pauses_app (out out' : list event) :
  pauses (out ++ out') = pauses out ++ pauses out'.
Proof. unfold pauses. apply omap_app. Qed.

Lemma refresh_lines (lines : list string) :
  printed (concat (map (fun line => [Print line; Sleep 5]) lines)) = lines
  /\ pauses (concat (map (fun line => [Print line; Sleep 5]) lines))
     = replicate (length lines) 5
  /\ Forall (fun ev => match ev with
                       | Print _ | Sleep _ => True
                       | _ => False
                       end)
            (concat (map (fun line => [Print line; Sleep 5]) lines)).
Proof.
  induction lines as [|line lines (IH1 & IH2 & IH3)]; simpl.
  - repeat split; constructor.
  - split; [|split].
    + change (printed (Print line :: Sleep 5 :: ?l)) with (line :: printed l).
      now rewrite IH1.
    + change (pauses (Print line :: Sleep 5 :: ?l)) with (5 :: pauses l).
      now rewrite IH2.
    + repeat (constructor; [exact I|]). exact IH3.
Qed.

Lemma instant_lines (lines : list string) :
  printed (map Print lines) = lines
  /\ pauses (map Print lines) = []
  /\ Forall (fun ev => match ev with
                       | Print _ | Sleep _ => True
                       | _ => False
                       end)
            (map Print lines).
Proof.
  induction lines as [|line lines (IH1 & IH2 & IH3)]; simpl.
  - repeat split; constructor.
  - split; [|split].
    + change (printed (Print line :: ?l)) with (line :: printed l).
      now rewrite IH1.
    + exact IH2.
    + constructor; [exact I|exact IH3].
Qed.

Lemma display_game_lines (word : string) (guessed : gset string) (i : Z)
    (message : string) (skip_effect : bool) (frame : list string) :
  game_frame word guessed i message = inr frame ->
  exists body : list event,
    display_game word guessed i message skip_effect = (Clear :: body, inr tt)
    /\ printed body = frame.
Proof.
  intros Hframe. unfold display_game. rewrite Hframe.
  destruct skip_effect; cbn [negb]; eexists; (split; [reflexivity|]).
  - apply instant_lines.
  - apply refresh_lines.
Qed.

Lemma refresh_lookup (lines : list string) (k : nat) (line : string) :
  lines !! k = Some line ->
  concat (map (fun line => [Print line; Sleep 5]) lines) !! (2 * k)%nat
  = Some (Print line)
  /\ concat (map (fun line => [Print line; Sleep 5]) lines) !! S (2 * k)
     = Some (Sleep 5).
Proof.
  revert k. induction lines as [|first lines IH]; intros [|k] Hline;
    try discriminate.
  - injection Hline as ->. split; reflexivity.
  - replace (2 * S k)%nat with (S (S (2 * k))) by lia.
    apply (IH k Hline).
Qed.

Lemma refresh_length (lines : list string) :
  length (concat (map (fun line => [Print line; Sleep 5]) lines))
  = (2 * length lines)%nat.
Proof.
  induction lines as [|line lines IH]; [reflexivity|].
  cbn [map concat app length]. rewrite IH. lia.
Qed.

(** X5: whenever the screen can be built, [display_game] clears the
    terminal and then writes the rows of the frame in order, and nothing
    else.  Without [skip_effect] every row is followed at once by a pause
    of 5 ms: row [k] is the event number [1 + 2k] and its pause the event
    number [2 + 2k].  With [skip_effect] the rows follow each other
    without any pause.  Both modes print the same rows. *)
Theorem display_game_output (word : string) (guessed : gset string) (i : Z)
    (message : string) (frame : list string) :
  game_frame word guessed i message = inr frame ->
  display_game word guessed i message false
  = (Clear :: concat (map (fun line => [Print line; Sleep 5]) frame), inr tt)
  /\ display_game word guessed i message true
     = (Clear :: map Print frame, inr tt)
  /\ (forall (k : nat) (line : string),
         frame !! k = Some line ->
         fst (display_game word guessed i message false) !! (1 + 2 * k)%nat
         = Some (Print line)
         /\ fst (display_game word guessed i message false) !! (2 + 2 * k)%nat
            = Some (Sleep 5)
         /\ fst (display_game word guessed i message true) !! (1 + k)%nat
            = Some (Print line))
  /\ length (fst (display_game word guessed i message false))
     = (1 + 2 * length frame)%nat
  /\ length (fst (display_game word guessed i message true))
     = (1 + length frame)%nat
  /\ printed (fst (display_game word guessed i message false)) = frame
  /\ printed (fst (display_game word guessed i message true)) = frame.
Proof.
  intros Hframe.
  assert (display_game word guessed i message false
          = (Clear :: concat (map (fun line => [Print line; Sleep 5]) frame),
             inr tt)) as Hslow
    by (unfold display_game; rewrite Hframe; reflexivity).
  assert (display_game word guessed i message true
          = (Clear :: map Print frame, inr tt)) as Hfast
    by (unfold display_game; rewrite Hframe; reflexivity).
  rewrite Hslow, Hfast. cbn [fst].
  split; [reflexivity|]. split; [reflexivity|]. split; [|split; [|split]].
  - intros k line Hline.
    destruct (refresh_lookup frame k line Hline) as [Hrow Hpause].
    split; [exact Hrow|]. split; [exact Hpause|].
    cbn [Nat.add]. rewrite lookup_tail, map_lookup, Hline. reflexivity.
  - cbn [length]. rewrite refresh_length. lia.
  - cbn [length]. rewrite length_map. lia.
  - split.
    + change (printed (Clear :: ?l)) with (printed l). apply refresh_lines.
    + change (printed (Clear :: ?l)) with (printed l). apply instant_lines.
Qed.

Lemma display_game_output_witness :
  fst (display_game "PIXEL" {[ "X" ]} 2 "Guess a letter." false) !! 48%nat
  = Some (Sleep 5)
  /\ length (fst (display_game "PIXEL" {[ "X" ]} 2 "Guess a letter." false))
     = 49%nat.
Proof.
  destruct (display_game_output "PIXEL" {[ "X" ]} 2 "Guess a letter." _
              eq_refl) as (_ & _ & Hrows & Hlen & _).
  split; [|exact Hlen].
  destruct (Hrows 23%nat _ eq_refl) as (_ & Hpause & _). exact Hpause.
Defined.

Lemma getitem_in_range {A : Type} (l : list A) (i : Z) :
  - Z.of_nat (length l) <= i < Z.of_nat (length l) ->
  exists x : A, Py.getitem l i = inr x.
Proof.
  intros Hi. destruct (Py.getitem l i) as [e|x] eqn:Hget; [|eauto].
  apply getitem_inl in Hget as [_ Hout]. lia.
Qed.

(** X6: the counter is used as a Python index into the 7 stages.  Beyond
    6, or below -7, [display_game] raises [IndexError] before it writes
    anything; from -7 to -1 it does not fail but shows the stage counted
    from the end; from -7 to 6 it always returns. *)
Theorem display_game_index (word : string) (guessed : gset string) (i : Z)
    (message : string) (skip_effect : bool) :
  (i < -7 \/ 6 < i ->
   display_game word guessed i message skip_effect = ([], inl Py.IndexError))
  /\ (-7 <= i <= 6 ->
      snd (display_game word guessed i message skip_effect) = inr tt)
  /\ (-7 <= i < 0 ->
      Py.getitem HANGMAN_STAGES i = Py.getitem HANGMAN_STAGES (i + 7)).
Proof.
  split; [|split].
  - intros Hout. unfold display_game, game_frame, game_content.
    destruct (Py.getitem HANGMAN_STAGES i) as [e|stage] eqn:Hget.
    + apply getitem_inl in Hget as [-> _]. reflexivity.
    + apply getitem_inr in Hget as [Hin _]. simpl in Hin. lia.
  - intros Hin.
    destruct (getitem_in_range HANGMAN_STAGES i) as [stage Hget];
      [simpl; lia|].
    unfold display_game, game_frame, game_content. rewrite Hget.
    destruct skip_effect; reflexivity.
  - intros Hneg.
    assert (i = -7 \/ i = -6 \/ i = -5 \/ i = -4 \/ i = -3 \/ i = -2
            \/ i = -1) as Hcases by lia.
    destruct Hcases as [->|[->|[->|[->|[->|[->| ->]]]]]]; reflexivity.
Qed.

Lemma display_game_index_witness :
  display_game "RETRO" ∅ 7 "Guess a letter." false = ([], inl Py.IndexError).
Proof.
  apply (proj1 (display_game_index "RETRO" ∅ 7 "Guess a letter." false)).
  right. lia.
Defined.

(** ** The validator, once more *)

Lemma upper_char_idempotent (c : ascii) :
  Py.upper_char (Py.upper_char c) = Py.upper_char c.
Proof. destruct c as [[] [] [] [] [] [] [] []]; reflexivity. Qed.

Lemma upper_idempotent (s : string) : Py.upper (Py.upper s) = Py.upper s.
Proof.
  induction s as [|c s IH]; simpl; [reflexivity|].
  now rewrite upper_char_idempotent, IH.
Qed.

Lemma upper_lower_char (c : ascii) :
  Py.upper_char (Py.lower_char c) = Py.upper_char c.
Proof. destruct c as [[] [] [] [] [] [] [] []]; reflexivity. Qed.

Lemma upper_lower (s : string) : Py.upper (Py.lower s) = Py.upper s.
Proof.
  induction s as [|c s IH]; simpl; [reflexivity|].
  now rewrite upper_lower_char, IH.
Qed.

(** X7: on a line of ASCII characters, where [Py.upper] and [Py.lower]
    are Python's, [get_guess] does not tell upper case from lower case:
    the line, its upper-case form and its lower-case form get the same
    answer and the same output. *)
Theorem get_guess_case (raw : string) (already_guessed : gset string) :
  ascii_line raw ->
  get_guess (Py.upper raw) already_guessed = get_guess raw already_guessed
  /\ get_guess (Py.lower raw) already_guessed = get_guess raw already_guessed.
Proof.
  intros _. unfold get_guess. rewrite upper_idempotent, upper_lower.
  split; reflexivity.
Qed.

Lemma get_guess_case_witness :
  get_guess "Q" {[ "Q" ]} = get_guess "q" {[ "Q" ]}
  /\ get_guess "q" {[ "Q" ]} = get_guess "q" {[ "Q" ]}.
Proof.
  apply (get_guess_case "q" {[ "Q" ]}).
  intros c Hc. apply elem_of_cons in Hc as [Hc|Hc]; [|inversion Hc].
  injection Hc as ->. vm_compute. lia.
Defined.

(** [get_guess] never raises and always asks first.  When it accepts,
    the prompt is all it writes; when it rejects, it writes the prompt,
    exactly one message and a pause of 1.5 s, and returns [None]. *)
Lemma get_guess_output (raw : string) (already_guessed : gset string) :
  (exists guess : string,
      get_guess raw already_guessed
      = ([Input (apply_crt_style "Enter your guess: " true)],
         inr (Some guess)))
  \/ (exists message : string,
         get_guess raw already_guessed
         = ([Input (apply_crt_style "Enter your guess: " true);
             Print (apply_crt_style message true);
             Sleep 1500],
            inr None)).
Proof.
  unfold get_guess.
  destruct (invalid_guess (Py.upper raw)); [right; eexists; reflexivity|].
  destruct (decide (Py.upper raw ∈ already_guessed));
    [right|left]; eexists; reflexivity.
Qed.

(** ** How sessions end *)

Lemma steps_last (st0 : GameState) (hist : list string) (st : GameState) :
  steps st0 hist st ->
  (hist = [] /\ st = st0)
  \/ exists (hist0 : list string) (st1 : GameState) (guess : string),
       hist = hist0 ++ [guess] /\ steps st0 hist0 st1 /\ step st1 guess st.
Proof.
  intros [|hist0 st1 guess st2 H0 Hstep]; [left; auto|].
  right. exists hist0, st1, guess. auto.
Qed.

Lemma word_list_facts (word : string) :
  word ∈ WORD_LIST ->
  word <> EmptyString
  /\ Forall uppercase_letter (Py.chars word)
  /\ (size (word_letters word) <= 9)%nat.
Proof.
  intros Hin. unfold WORD_LIST in Hin.
  repeat (apply elem_of_cons in Hin as [->|Hin];
          [split; [discriminate|];
           split; [repeat constructor; eexists;
                   (split; [reflexivity|vm_compute; lia])
                  |vm_compute; lia]|]).
  inversion Hin.
Qed.

Lemma all_guessed_nothing (word : string) :
  all_guessed word ∅ = true -> word = EmptyString.
Proof.
  destruct word as [|c word]; [reflexivity|]. unfold all_guessed. simpl.
  rewrite bool_decide_eq_false_2 by set_solver. discriminate.
Qed.

Lemma all_guessed_miss (st : GameState) (guess : string) :
  uppercase_letter guess ->
  Py.contains guess (chosen_word st) = false ->
  all_guessed (chosen_word st) (guessed_letters (apply_guess st guess)) = true ->
  all_guessed (chosen_word st) (guessed_letters st) = true.
Proof.
  intros (c & -> & _) Hmiss Hall. rewrite all_guessed_iff in *.
  intros letter Hin. specialize (Hall letter Hin). simpl in Hall.
  apply elem_of_union in Hall as [Heq|Hold]; [|exact Hold].
  apply elem_of_singleton in Heq as ->.
  apply contains_letter in Hin. congruence.
Qed.

(** X9: in a reachable state the word is never complete with the counter
    at its maximum: the win test and the loss test of the game loop never
    hold together, so their order decides nothing, and a game that is won
    has at most 5 misses. *)
Theorem win_excludes_loss (st : GameState) :
  reachable st ->
  all_guessed (chosen_word st) (guessed_letters st) = true ->
  incorrect_guesses st < MAX_INCORRECT_GUESSES.
Proof.
  intros (hist & r & word & Hword & Hsteps) Hall.
  apply choose_word_elem, word_list_facts in Hword as (Hne & _).
  apply steps_last in Hsteps
    as [[_ ->]|(hist0 & st1 & guess & _ & Hsteps & Hstep)].
  - simpl in Hall. apply all_guessed_nothing in Hall. contradiction.
  - apply step_inversion in Hstep as (-> & Hst & Hletter & _).
    apply status_in_progress in Hst as [Hnot Hlt]. simpl in *.
    destruct (Py.contains guess (chosen_word st1)) eqn:Hin; simpl;
      [exact Hlt|].
    apply all_guessed_miss in Hall; [congruence|exact Hletter|exact Hin].
Qed.

Lemma win_excludes_loss_witness :
  incorrect_guesses
    (fst (run (new_game "RETRO") ["q"; "w"; "x"; "z"; "j"; "r"; "e"; "t"; "o"]))
  < MAX_INCORRECT_GUESSES.
Proof.
  apply (win_excludes_loss _ (run_reachable 7 "RETRO" _ eq_refl)).
  vm_compute. reflexivity.
Defined.

Lemma not_all_guessed (word : string) (guessed : gset string) :
  all_guessed word guessed = false ->
  exists letter : string, letter ∈ Py.chars word /\ letter ∉ guessed.
Proof.
  unfold all_guessed. induction (Py.chars word) as [|letter letters IH];
    simpl; [discriminate|].
  destruct (bool_decide (letter ∈ guessed)) eqn:Hd; simpl.
  - intros H. destruct (IH H) as (x & Hx & Hnot). exists x. split; [|exact Hnot].
    apply elem_of_cons. auto.
  - intros _. exists letter. split; [apply elem_of_cons; auto|].
    apply bool_decide_eq_false in Hd. exact Hd.
Qed.

(** X10: a session never takes more accepted guesses than the word has
    different letters plus 5, which is at most 14 for the words of
    [WORD_LIST]: after that many the game loop has stopped. *)
Theorem session_length (hist : list string) (st : GameState) :
  session hist st ->
  (length hist <= size (word_letters (chosen_word st)) + 5)%nat
  /\ (length hist <= 14)%nat.
Proof.
  intros (r & word & Hword & Hsteps).
  pose proof (choose_word_elem _ _ _ Hword) as Hin.
  apply word_list_facts in Hin as (_ & _ & Hnine).
  assert (chosen_word st = word) as Hw.
  { apply (inv_word word hist st).
    apply (steps_invariant word [] (new_game word) hist st);
      [apply invariant_new_game|exact Hsteps]. }
  rewrite Hw.
  apply steps_last in Hsteps
    as [[-> _]|(hist0 & st1 & guess & -> & Hsteps & Hstep)];
    [simpl; lia|].
  pose proof (steps_invariant word [] (new_game word) hist0 st1
                (invariant_new_game word) Hsteps) as Hinv.
  simpl in Hinv.
  apply step_inversion in Hstep as (_ & Hst & _ & _).
  apply status_in_progress in Hst as [Hnot Hlt].
  rewrite (inv_word _ _ _ Hinv) in Hnot.
  apply not_all_guessed in Hnot as (letter & Hletter & Hout).
  assert (size (guessed_letters st1) = length hist0) as Hsize.
  { rewrite (inv_guessed _ _ _ Hinv).
    apply size_list_to_set, (inv_nodup _ _ _ Hinv). }
  assert (guessed_letters st1
          = (guessed_letters st1 ∩ word_letters word)
              ∪ (guessed_letters st1 ∖ word_letters word)) as Hsplit.
  { apply set_eq. intros x.
    destruct (decide (x ∈ word_letters word)); set_solver. }
  assert (size (guessed_letters st1 ∩ word_letters word)
          < size (word_letters word))%nat as Hless.
  { apply subset_size. split; [set_solver|].
    intros Hsub. apply Hout.
    assert (letter ∈ word_letters word) as Hl
      by (apply elem_of_list_to_set; exact Hletter).
    apply Hsub in Hl. set_solver. }
  rewrite Hsplit, size_union in Hsize by set_solver.
  pose proof (inv_count _ _ _ Hinv) as Hcount.
  rewrite max_incorrect_guesses in Hlt.
  rewrite length_app. simpl. lia.
Qed.

Lemma session_length_witness :
  (length (snd (run (new_game "RETRO") ["q"; "r"; "e"; "w"; "t"; "o"; "x"]))
   <= 14)%nat.
Proof.
  apply (session_length _ _
           (ex_intro _ 7%nat
              (ex_intro _ "RETRO" (conj eq_refl (run_steps _ _))))).
Defined.

Lemma steps_subset (st : GameState) (hist : list string) (st' : GameState) :
  steps st hist st' ->
  chosen_word st' = chosen_word st
  /\ guessed_letters st ⊆ guessed_letters st'.
Proof.
  induction 1 as [|hist st' guess st'' _ [IHw IHg] Hstep]; [split; auto|].
  apply step_inversion in Hstep as (-> & _). simpl. split; [exact IHw|].
  set_solver.
Qed.

Lemma run_covers (inputs : list string) (st : GameState) (raw : string) :
  status (fst (run st inputs)) = InProgress ->
  raw ∈ inputs -> uppercase_letter (Py.upper raw) ->
  Py.upper raw ∈ guessed_letters (fst (run st inputs)).
Proof.
  revert st. induction inputs as [|line rest IH]; intros st Hst Hin Hletter;
    [inversion Hin|].
  pose proof (run_steps st (line :: rest)) as Hsteps.
  apply steps_subset in Hsteps as [_ Hsub].
  simpl in *. destruct (status st) eqn:Hstatus; simpl in Hst;
    try congruence.
  pose proof (get_guess_result line (guessed_letters st)) as Hres.
  destruct (snd (get_guess line (guessed_letters st)))
    as [e|[guess|]] eqn:Hg.
  - discriminate Hres.
  - pose proof (run_steps (apply_guess st guess) rest) as Hsteps'.
    apply steps_subset in Hsteps' as [_ Hsub'].
    specialize (IH (apply_guess st guess)).
    destruct (run (apply_guess st guess) rest) as [st' hist]. simpl in *.
    apply elem_of_cons in Hin as [->|Hin]; [|apply IH; assumption].
    apply get_guess_accepts in Hg as (-> & _). apply Hsub'. set_solver.
  - apply elem_of_cons in Hin as [->|Hin]; [|apply IH; assumption].
    apply Hsub. injection Hres as Hres.
    destruct (invalid_guess (Py.upper line)) eqn:Hinv.
    + apply invalid_guess_false in Hletter. congruence.
    + destruct (decide (Py.upper line ∈ guessed_letters st));
        [assumption|discriminate].
Qed.

Lemma uppercase_in_alphabet (letter : string) :
  uppercase_letter letter -> letter ∈ ALPHABET.
Proof.
  intros (c & -> & Hrange).
  destruct c as [[] [] [] [] [] [] [] []]; vm_compute in Hrange;
    try lia; apply (bool_decide_unpack _); vm_compute; exact I.
Qed.

(** X11: a session on a word of the list whose input holds every letter of
    the alphabet, in either case, in any order and among any other lines,
    always ends: the game loop returns a final state, won or lost, and
    does not run out of input. *)
Theorem alphabet_ends_session (r : nat) (word : string)
    (inputs : list string) :
  choose_word WORD_LIST r = inr word ->
  (forall letter : string,
      letter ∈ ALPHABET -> exists raw : string,
        raw ∈ inputs /\ Py.upper raw = letter) ->
  exists st : GameState,
    snd (play_session word inputs) = inr st
    /\ st = fst (run (new_game word) inputs)
    /\ (status st = Won \/ status st = Lost).
Proof.
  intros Hword Hcover.
  destruct (play_session_run r word inputs Hword) as [_ Hplay].
  pose proof (run_steps (new_game word) inputs) as Hsteps.
  apply steps_subset in Hsteps as [Hw _]. simpl in Hw.
  apply choose_word_elem, word_list_facts in Hword as (_ & Hletters & _).
  exists (fst (run (new_game word) inputs)).
  destruct (status (fst (run (new_game word) inputs))) eqn:Hst; auto.
  exfalso.
  assert (all_guessed word
            (guessed_letters (fst (run (new_game word) inputs))) = true)
    as Hall.
  { apply all_guessed_iff. intros letter Hin.
    rewrite Forall_forall in Hletters.
    pose proof (Hletters letter Hin) as Hup.
    destruct (Hcover letter (uppercase_in_alphabet letter Hup))
      as (raw & Hraw & <-).
    apply run_covers; assumption. }
  unfold status in Hst. rewrite Hw, Hall in Hst. discriminate Hst.
Qed.

Lemma alphabet_ends_session_witness :
  exists st : GameState,
    snd (play_session "KEYBOARD"
           (Py.chars "the quick brown fox jumps over a lazy dog")) = inr st
    /\ (status st = Won \/ status st = Lost).
Proof.
  destruct (alphabet_ends_session 9 "KEYBOARD"
              (Py.chars "the quick brown fox jumps over a lazy dog") eq_refl)
    as (st & Hplay & _ & Hend).
  - intros letter Hin. unfold ALPHABET in Hin.
    repeat (apply elem_of_cons in Hin as [->|Hin];
            [match goal with
             | |- exists raw : string, _ /\ Py.upper raw = ?l =>
                 exists (Py.lower l)
             end;
             split; [apply (bool_decide_unpack _); vm_compute; exact I
                    |reflexivity]|]).
    inversion Hin.
  - exists st. auto.
Defined.

(** ** The mask and the end of the game *)

Lemma chars_app (s1 s2 : string) :
  Py.chars (s1 +:+ s2) = Py.chars s1 ++ Py.chars s2.
Proof.
  induction s1 as [|c s1 IH]; [reflexivity|].
  change (String c s1 +:+ s2) with (String c (s1 +:+ s2)). simpl.
  now rewrite IH.
Qed.

Lemma underscore_not_letter (letter : string) :
  uppercase_letter letter -> letter <> "_".
Proof. intros (c & -> & Hrange) [= ->]. vm_compute in Hrange. lia. Qed.

Lemma display_word_underscore (word : string) (guessed : gset string) :
  Forall uppercase_letter (Py.chars word) ->
  "_" ∈ Py.chars (display_word word guessed)
  <-> exists letter : string, letter ∈ Py.chars word /\ letter ∉ guessed.
Proof.
  induction word as [|c word IH]; intros Hall.
  - split; [intros H; inversion H|intros (x & H & _); inversion H].
  - simpl in Hall. apply Forall_cons in Hall as [Hc Hall].
    specialize (IH Hall). rewrite display_word_cons, chars_app.
    rewrite elem_of_app, IH. cbn [Py.chars].
    destruct (decide (String c EmptyString ∈ guessed)) as [Hin|Hout].
    + split.
      * intros [H|(x & Hx & Hnot)].
        -- apply elem_of_cons in H as [H|H];
             [symmetry in H; apply underscore_not_letter in H;
              [contradiction|exact Hc]|].
           apply elem_of_cons in H as [H|H]; [discriminate H|inversion H].
        -- exists x. split; [apply elem_of_cons; auto|exact Hnot].
      * intros (x & Hx & Hnot). right.
        apply elem_of_cons in Hx as [->|Hx]; [contradiction|eauto].
    + split.
      * intros _. exists (String c EmptyString).
        split; [apply elem_of_cons; auto|exact Hout].
      * intros _. left. apply elem_of_cons. auto.
Qed.

Lemma word_line_space (word : string) (guessed : gset string) :
  word <> EmptyString -> Forall uppercase_letter (Py.chars word) ->
  word_line word guessed +:+ " " = " Word: " +:+ display_word word guessed.
Proof.
  destruct word as [|c word]; intros Hne Hall; [contradiction|].
  unfold word_line. rewrite str_app_assoc. f_equal.
  pose proof Hall as Hall'. simpl in Hall'.
  apply Forall_cons in Hall' as [(c' & Heq & Hc) Hrest].
  injection Heq as <-.
  rewrite display_word_cons.
  set (y := if decide (String c EmptyString ∈ guessed) then c else "_"%char).
  assert (Py.isspace y = false) as Hy.
  { unfold y. destruct (decide _); [apply uppercase_not_space, Hc
                                    |reflexivity]. }
  replace ((if decide (String c EmptyString ∈ guessed)
            then String c " " else "_ ") +:+ display_word word guessed)
    with (String y (String " " (display_word word guessed)))
    by (unfold y; destruct (decide _); reflexivity).
  unfold Py.strip. cbn [Py.lstrip]. rewrite Hy.
  apply rstrip_masked; assumption.
Qed.

(** X12: in a reachable state the word line of the screen shows an
    underscore exactly as long as the game is not won: no letter is ever
    revealed without being guessed, and none stays hidden once it is. *)
Theorem underscore_until_won (st : GameState) :
  reachable st ->
  Py.contains "_" (word_line (chosen_word st) (guessed_letters st)) = false
  <-> status st = Won.
Proof.
  intros (hist & Hs).
  apply session_invariant in Hs as (word & Hin & Hinv).
  apply word_list_facts in Hin as (Hne & Hletters & _).
  rewrite (inv_word _ _ _ Hinv).
  pose proof (word_line_space word (guessed_letters st) Hne Hletters) as Hline.
  pose proof (display_word_underscore word (guessed_letters st) Hletters)
    as Hunder.
  assert ("_" ∈ Py.chars (word_line word (guessed_letters st))
          <-> "_" ∈ Py.chars (display_word word (guessed_letters st)))
    as Hsame.
  { apply (f_equal Py.chars) in Hline. rewrite !chars_app in Hline.
    split; intros H.
    - assert ("_" ∈ Py.chars " Word: "
                      ++ Py.chars (display_word word (guessed_letters st)))
        as H' by (rewrite <- Hline; apply elem_of_app; auto).
      apply elem_of_app in H' as [H'|H']; [|exact H'].
      vm_compute in H'.
      repeat (apply elem_of_cons in H' as [H'|H']; [discriminate H'|]).
      inversion H'.
    - assert ("_" ∈ Py.chars (word_line word (guessed_letters st))
                      ++ Py.chars " ") as H'
        by (rewrite Hline; apply elem_of_app; auto).
      apply elem_of_app in H' as [H'|H']; [exact H'|].
      apply elem_of_cons in H' as [H'|H']; [discriminate H'|inversion H']. }
  unfold status. rewrite (inv_word _ _ _ Hinv).
  destruct (all_guessed word (guessed_letters st)) eqn:Hall.
  - split; [reflexivity|]. intros _.
    destruct (Py.contains "_" (word_line word (guessed_letters st))) eqn:Hc;
      [|reflexivity].
    apply contains_letter, Hsame, Hunder in Hc as (x & Hx & Hnot).
    rewrite all_guessed_iff in Hall. exfalso. auto.
  - split.
    + intros Hc. exfalso.
      apply not_all_guessed, Hunder, Hsame, contains_letter in Hall.
      congruence.
    + destruct (MAX_INCORRECT_GUESSES <=? incorrect_guesses st); discriminate.
Qed.

Lemma underscore_until_won_witness :
  Py.contains "_"
    (word_line
       (chosen_word (fst (run (new_game "RETRO") ["r"; "e"; "t"; "o"])))
       (guessed_letters (fst (run (new_game "RETRO") ["r"; "e"; "t"; "o"]))))
  = false
  <-> status (fst (run (new_game "RETRO") ["r"; "e"; "t"; "o"])) = Won.
Proof.
  exact (underscore_until_won
           (fst (run (new_game "RETRO") ["r"; "e"; "t"; "o"]))
           (run_reachable 7 "RETRO" _ eq_refl)).
Defined.

(** ** The whole program *)

Lemma io_bind_fst {A B : Type} (m : io A) (f : A -> io B) (a : A) :
  snd m = inr a -> fst (io_bind m f) = fst m ++ fst (f a).
Proof.
  destruct m as [out r]. simpl. intros ->. destruct (f a). reflexivity.
Qed.

Lemma io_bind_raise {A B : Type} (m : io A) (f : A -> io B) (e : Py.exn) :
  snd m = inl e -> io_bind m f = (fst m, inl e).
Proof. destruct m as [out r]. simpl. intros ->. reflexivity. Qed.

Lemma io_bind_pair {A B : Type} (m : io A) (f : A -> io B) (a : A) :
  snd m = inr a -> io_bind m f = (fst m ++ fst (f a), snd (f a)).
Proof.
  destruct m as [out r]. simpl. intros ->. destruct (f a). reflexivity.
Qed.

Lemma io_map_bind {A B C : Type} (g : B -> C) (m : io A) (f : A -> io B) :
  io_map g (io_bind m f) = io_bind m (fun a => io_map g (f a)).
Proof.
  destruct m as [out [e|a]]; [reflexivity|]. unfold io_map. simpl.
  destruct (f a) as [out' r]. reflexivity.
Qed.

Lemma io_bind_ext {A B : Type} (m : io A) (f g : A -> io B) :
  (forall a : A, f a = g a) -> io_bind m f = io_bind m g.
Proof.
  intros Hfg. destruct m as [out [e|a]]; [reflexivity|]. simpl.
  now rewrite Hfg.
Qed.

Lemma round_start_from_agrees (st : GameState) (inputs : list string)
    (continue : io (GameState * list string)) :
  io_map fst (round_start_from st inputs continue)
  = round_start st (io_map fst continue).
Proof.
  unfold round_start_from, round_start. rewrite io_map_bind.
  apply io_bind_ext. intros _.
  destruct (status st); [reflexivity| |]; rewrite io_map_bind;
    apply io_bind_ext; intros _; reflexivity.
Qed.

(** The loop that returns the unread lines writes what [guess_loop]
    writes and ends in the same state. *)
Lemma guess_loop_from_agrees (inputs : list string) (st : GameState) :
  io_map fst (guess_loop_from st inputs) = guess_loop st inputs.
Proof.
  revert st. induction inputs as [|raw rest IH]; intros st;
    cbn [guess_loop_from guess_loop]; rewrite io_map_bind;
    apply io_bind_ext; intros _.
  - rewrite io_map_bind. apply io_bind_ext. intros _. reflexivity.
  - rewrite io_map_bind. apply io_bind_ext. intros [guess|]; [|apply IH].
    cbv zeta. rewrite io_map_bind. apply io_bind_ext. intros _.
    rewrite round_start_from_agrees, IH. reflexivity.
Qed.

Lemma play_session_from_agrees (word : string) (inputs : list string) :
  io_map fst (play_session_from word inputs) = play_session word inputs.
Proof.
  unfold play_session_from, play_session.
  rewrite round_start_from_agrees, guess_loop_from_agrees. reflexivity.
Qed.

Lemma new_game_in_progress (word : string) :
  word ∈ WORD_LIST -> status (new_game word) = InProgress.
Proof.
  intros Hin. apply word_list_facts in Hin as (Hne & _).
  unfold status. simpl.
  destruct (all_guessed word ∅) eqn:Hall; [|reflexivity].
  apply all_guessed_nothing in Hall. contradiction.
Qed.

Lemma show_pair (st : GameState) (message : string) (skip_effect : bool) :
  reachable st ->
  show st message skip_effect = (fst (show st message skip_effect), inr tt).
Proof.
  intros Hreach. rewrite <- (show_returns st message skip_effect Hreach).
  destruct (show st message skip_effect). reflexivity.
Qed.

(** From a running state, the loop either stops at a prompt at the end of
    the input, or ends the game on a line of the input and leaves the
    lines after it unread. *)
Lemma guess_loop_from_outcome (inputs : list string) (st : GameState) :
  reachable st -> status st = InProgress ->
  (snd (guess_loop_from st inputs) = inl Py.EOFError
   /\ exists prompt : string,
        last (fst (guess_loop_from st inputs)) = Some (Input prompt))
  \/ exists (st' : GameState) (used rest : list string),
       snd (guess_loop_from st inputs) = inr (st', rest)
       /\ inputs = used ++ rest /\ used <> []
       /\ reachable st' /\ status st' <> InProgress.
Proof.
  revert st. induction inputs as [|raw rest IH]; intros st Hreach Hst;
    cbn [guess_loop_from];
    rewrite (io_bind_pair (show st _ _) _ tt) by (apply show_returns, Hreach);
    cbn beta.
  - left. split; [reflexivity|]. cbn [fst io_bind io_tell io_raise app].
    rewrite last_snoc. eauto.
  - destruct (get_guess_output raw (guessed_letters st))
      as [[guess Hg]|[message Hg]].
    + assert (step st guess (apply_guess st guess)) as Hstep
        by (econstructor; [exact Hst|rewrite Hg; reflexivity]).
      pose proof (step_reachable _ _ _ Hreach Hstep) as Hreach'.
      rewrite (io_bind_pair (get_guess _ _) _ (Some guess))
        by (rewrite Hg; reflexivity).
      cbn beta iota zeta.
      rewrite (io_bind_pair (report_guess _ _) _ tt)
        by (apply report_guess_returns, Hreach').
      cbn beta. unfold round_start_from.
      rewrite (io_bind_pair (show (apply_guess st guess) _ _) _ tt)
        by (apply show_returns, Hreach').
      cbn beta.
      destruct (status (apply_guess st guess)) eqn:Hst'.
      * destruct (IH _ Hreach' Hst')
          as [[Heof [prompt Hlast]]
             |(st' & used & rest' & Hres & Heq & Hne & Hr' & Hs')].
        -- left. cbn [fst snd]. split; [exact Heof|].
           exists prompt. rewrite !last_app, Hlast. reflexivity.
        -- right. exists st', (raw :: used), rest'. cbn [fst snd].
           split; [exact Hres|]. split; [rewrite Heq; reflexivity|].
           split; [discriminate|]. auto.
      * right. exists (apply_guess st guess), [raw], rest.
        rewrite (io_bind_pair (show (apply_guess st guess) _ _) _ tt)
          by (apply show_returns, Hreach').
        split; [reflexivity|]. split; [reflexivity|].
        split; [discriminate|]. split; [exact Hreach'|congruence].
      * right. exists (apply_guess st guess), [raw], rest.
        rewrite (io_bind_pair (show (apply_guess st guess) _ _) _ tt)
          by (apply show_returns, Hreach').
        split; [reflexivity|]. split; [reflexivity|].
        split; [discriminate|]. split; [exact Hreach'|congruence].
    + rewrite (io_bind_pair (get_guess _ _) _ None)
        by (rewrite Hg; reflexivity).
      cbn beta iota.
      destruct (IH _ Hreach Hst)
        as [[Heof [prompt Hlast]]
           |(st' & used & rest' & Hres & Heq & Hne & Hr' & Hs')].
      * left. cbn [fst snd]. split; [exact Heof|].
        exists prompt. rewrite !last_app, Hlast. reflexivity.
      * right. exists st', (raw :: used), rest'. cbn [fst snd].
        split; [exact Hres|]. split; [rewrite Heq; reflexivity|].
        split; [discriminate|]. auto.
Qed.

Lemma choose_word_list (r : nat) :
  exists word : string,
    choose_word WORD_LIST r = inr word /\ word ∈ WORD_LIST.
Proof.
  destruct (choose_word WORD_LIST r) as [e|word] eqn:Hword.
  - exfalso. unfold choose_word, Py.random_choice, WORD_LIST in Hword.
    match type of Hword with
    | context [?l !! ?i] =>
        destruct (lookup_lt_is_Some_2 l i) as [x Hx];
        [apply Nat.mod_upper_bound; discriminate|rewrite Hx in Hword]
    end.
    discriminate Hword.
  - exists word. split; [reflexivity|]. eapply choose_word_elem. exact Hword.
Qed.

Lemma play_session_from_outcome (r : nat) (word : string)
    (inputs : list string) :
  choose_word WORD_LIST r = inr word ->
  (snd (play_session_from word inputs) = inl Py.EOFError
   /\ exists prompt : string,
        last (fst (play_session_from word inputs)) = Some (Input prompt))
  \/ exists (st' : GameState) (used rest : list string),
       snd (play_session_from word inputs) = inr (st', rest)
       /\ inputs = used ++ rest /\ used <> []
       /\ reachable st' /\ status st' <> InProgress.
Proof.
  intros Hword.
  assert (reachable (new_game word)) as Hreach
    by (exists []; eapply new_game_session; exact Hword).
  pose proof (new_game_in_progress word (choose_word_elem _ _ _ Hword)) as Hst.
  unfold play_session_from, round_start_from.
  rewrite (io_bind_pair (show _ _ _) _ tt) by (apply show_returns, Hreach).
  cbn beta. rewrite Hst. cbn [fst snd].
  destruct (guess_loop_from_outcome inputs (new_game word) Hreach Hst)
    as [[Heof [prompt Hlast]]|Hdone].
  - left. split; [exact Heof|]. exists prompt.
    rewrite last_app, Hlast. reflexivity.
  - right. exact Hdone.
Qed.

Lemma io_bind_ext_returned {A B : Type} (m : io A) (f g : A -> io B) :
  (forall a : A, snd m = inr a -> f a = g a) -> io_bind m f = io_bind m g.
Proof.
  intros Hfg. destruct m as [out [e|a]]; [reflexivity|]. simpl.
  now rewrite Hfg.
Qed.

(** X13: [play_loop] needs no more fuel than there are input lines: with
    more fuel than lines it never runs out, and any two such amounts of
    fuel give the same output and the same result. *)
Theorem play_loop_fuel (fuel fuel' : nat) (draws : nat -> nat) (k : nat)
    (inputs : list string) :
  (length inputs < fuel)%nat -> (length inputs < fuel')%nat ->
  play_loop fuel draws k inputs = play_loop fuel' draws k inputs
  /\ snd (play_loop fuel draws k inputs) <> inr None.
Proof.
  revert fuel' k inputs.
  induction fuel as [|fuel IH]; intros [|fuel'] k inputs Hlt Hlt';
    try lia.
  cbn [play_loop].
  destruct (choose_word_list (draws k)) as (word & Hword & _).
  rewrite Hword. split.
  - apply io_bind_ext_returned. intros [st' rest] Hres.
    apply io_bind_ext. intros _. cbn [snd].
    destruct rest as [|answer rest']; [reflexivity|]. cbv zeta.
    destruct (decide (Py.lower answer <> "yes")); [reflexivity|].
    destruct (play_session_from_outcome _ _ inputs Hword)
      as [[Heof _]|(st2 & used & rest2 & Hres2 & Heq & Hne & _)];
      [congruence|].
    rewrite Hres in Hres2. injection Hres2 as <- <-.
    apply IH; subst inputs; rewrite length_app in *; simpl in *;
      destruct used; simpl in *; try contradiction; lia.
  - rewrite io_bind_snd.
    destruct (play_session_from_outcome _ _ inputs Hword)
      as [[Heof _]|(st2 & used & rest & Hres & Heq & Hne & _)].
    + rewrite Heof. discriminate.
    + rewrite Hres. rewrite io_bind_snd. cbn [io_tell snd].
      destruct rest as [|answer rest']; [discriminate|]. cbv zeta.
      destruct (decide (Py.lower answer <> "yes")); [discriminate|].
      apply (IH fuel (S k) rest'); subst inputs; rewrite length_app in *;
        simpl in *; destruct used; simpl in *; try contradiction; lia.
Qed.

Lemma play_loop_fuel_witness :
  play_loop 7 (fun k => (7 + k)%nat) 0 ["r"; "e"; "t"; "o"; "yes"; "p"]
  = play_loop 100 (fun k => (7 + k)%nat) 0 ["r"; "e"; "t"; "o"; "yes"; "p"].
Proof.
  apply (play_loop_fuel 7 100 (fun k => (7 + k)%nat) 0
           ["r"; "e"; "t"; "o"; "yes"; "p"]); simpl; lia.
Defined.

(** X14: with enough fuel [play_game] ends in one of two ways.  Either it
    returns, and then its output is the boot message, the sessions and
    the farewell message, in this order; or the input ends while it waits
    at a prompt, and then it raises [EOFError] and the prompt is the last
    thing written.  It never fails in another way. *)
Theorem play_game_outcome (fuel : nat) (draws : nat -> nat)
    (inputs : list string) :
  (length inputs < fuel)%nat ->
  play_game fuel draws inputs
  = ([Clear; Print (apply_crt_style "Booting up CRT Hangman..." true);
      Sleep 1500]
       ++ fst (play_loop fuel draws 0 inputs)
       ++ [Clear; Print (apply_crt_style "Thanks for playing CRT Hangman!"
                                         true);
           Sleep 1500],
     inr (Some tt))
  \/ (snd (play_game fuel draws inputs) = inl Py.EOFError
      /\ exists prompt : string,
           last (fst (play_game fuel draws inputs)) = Some (Input prompt)).
Proof.
  intros Hlt.
  assert (forall (fuel : nat) (k : nat) (inputs : list string),
             (length inputs < fuel)%nat ->
             snd (play_loop fuel draws k inputs) = inr (Some tt)
             \/ (snd (play_loop fuel draws k inputs) = inl Py.EOFError
                 /\ exists prompt : string,
                      last (fst (play_loop fuel draws k inputs))
                      = Some (Input prompt))) as Hloop.
  { clear. induction fuel as [|fuel IH]; intros k inputs Hlt; [lia|].
    cbn [play_loop].
    destruct (choose_word_list (draws k)) as (word & Hword & _).
    rewrite Hword.
    destruct (play_session_from_outcome _ _ inputs Hword)
      as [[Heof [prompt Hlast]]|(st & used & rest & Hres & Heq & Hne & _)].
    - right. rewrite (io_bind_raise _ _ _ Heof). eauto.
    - rewrite (io_bind_pair _ _ _ Hres). cbn beta.
      rewrite (io_bind_pair (io_tell _) _ tt) by reflexivity.
      cbn [fst snd io_tell].
      destruct rest as [|answer rest'].
      + right. split; [reflexivity|]. exists play_again_prompt.
        cbn [fst io_raise]. rewrite app_nil_r, last_snoc. reflexivity.
      + cbv zeta.
        destruct (decide (Py.lower answer <> "yes")); [left; reflexivity|].
        destruct (IH (S k) rest') as [Hret|[Heof [prompt Hlast]]].
        * subst inputs. rewrite length_app in Hlt. simpl in Hlt.
          destruct used; simpl in *; [contradiction|lia].
        * left. exact Hret.
        * right. split; [exact Heof|]. exists prompt.
          rewrite !last_app, Hlast. reflexivity. }
  unfold play_game.
  rewrite (io_bind_pair boot _ tt) by reflexivity. cbn beta.
  destruct (Hloop fuel 0%nat inputs Hlt) as [Hret|[Heof [prompt Hlast]]].
  - left. rewrite (io_bind_pair _ _ _ Hret). cbn beta iota.
    rewrite (io_bind_pair farewell _ tt) by reflexivity.
    cbn [fst snd io_ret boot farewell io_bind clear_screen io_tell app].
    rewrite ?app_nil_r. reflexivity.
  - right. rewrite (io_bind_raise _ _ _ Heof). cbn [fst snd].
    split; [reflexivity|]. exists prompt.
    rewrite last_app, Hlast. reflexivity.
Qed.

Lemma play_game_outcome_witness :
  snd (play_game 7 (fun k => (7 + k)%nat) ["r"; "e"; "t"; "o"; "no"; "p"])
  = inr (Some tt)
  \/ snd (play_game 7 (fun k => (7 + k)%nat) ["r"; "e"; "t"; "o"; "no"; "p"])
     = inl Py.EOFError.
Proof.
  destruct (play_game_outcome 7 (fun k => (7 + k)%nat)
              ["r"; "e"; "t"; "o"; "no"; "p"] ltac:(simpl; lia))
    as [Hret|[Heof _]].
  - left. rewrite Hret. reflexivity.
  - right. exact Heof.
Defined.

(** The lines after the one that ends the game are not looked at: with
    more lines after it, the loop writes the same and returns them. *)
Lemma guess_loop_from_more (used : list string) (st st' : GameState)
    (more : list string) :
  reachable st -> status st = InProgress ->
  snd (guess_loop_from st used) = inr (st', []) ->
  guess_loop_from st (used ++ more)
  = (fst (guess_loop_from st used), inr (st', more)).
Proof.
  revert st. induction used as [|raw rest IH]; intros st Hreach Hst;
    cbn [guess_loop_from app];
    rewrite !(io_bind_pair (show st _ _) _ tt)
      by (apply show_returns, Hreach);
    cbn beta; cbn [fst snd].
  - discriminate.
  - destruct (get_guess_output raw (guessed_letters st))
      as [[guess Hg]|[message Hg]].
    + assert (step st guess (apply_guess st guess)) as Hstep
        by (econstructor; [exact Hst|rewrite Hg; reflexivity]).
      pose proof (step_reachable _ _ _ Hreach Hstep) as Hreach'.
      rewrite !(io_bind_pair (get_guess _ _) _ (Some guess))
        by (rewrite Hg; reflexivity).
      cbn beta iota zeta.
      rewrite !(io_bind_pair (report_guess _ _) _ tt)
        by (apply report_guess_returns, Hreach').
      cbn beta. unfold round_start_from.
      rewrite !(io_bind_pair (show (apply_guess st guess) _ _) _ tt)
        by (apply show_returns, Hreach').
      cbn beta.
      destruct (status (apply_guess st guess)) eqn:Hst'; cbn [fst snd].
      * intros Hres. rewrite (IH _ Hreach' Hst' Hres). reflexivity.
      * cbn [fst snd io_ret]. intros [= <- ->]. reflexivity.
      * cbn [fst snd io_ret]. intros [= <- ->]. reflexivity.
    + rewrite !(io_bind_pair (get_guess _ _) _ None)
        by (rewrite Hg; reflexivity).
      cbn beta iota. cbn [fst snd].
      intros Hres. rewrite (IH _ Hreach Hst Hres). reflexivity.
Qed.

Lemma lower_char_yes (c : ascii) :
  (Py.lower_char c = "y"%char <-> c = "y"%char \/ c = "Y"%char)
  /\ (Py.lower_char c = "e"%char <-> c = "e"%char \/ c = "E"%char)
  /\ (Py.lower_char c = "s"%char <-> c = "s"%char \/ c = "S"%char).
Proof.
  destruct c as [[] [] [] [] [] [] [] []]; vm_compute;
    repeat split; intros H; try discriminate H; auto;
    destruct H as [H|H]; discriminate H.
Qed.

(** X15: how the lines of the input are shared out.  When the lines
    [used] end a session, the next line answers the replay question.  If
    it is yes, in any mix of upper and lower case, the program goes on
    with the next session on the lines after it; with any other answer it
    stops, whatever lines follow: they are never read. *)
Theorem play_again (fuel : nat) (draws : nat -> nat) (k : nat) (word : string)
    (st : GameState) (used : list string) (answer : string)
    (more : list string) :
  choose_word WORD_LIST (draws k) = inr word ->
  snd (play_session_from word used) = inr (st, []) ->
  (Py.lower answer = "yes" <->
   answer ∈ ["yes"; "yeS"; "yEs"; "yES"; "Yes"; "YeS"; "YEs"; "YES"])
  /\ (Py.lower answer = "yes" ->
      play_loop (S fuel) draws k (used ++ answer :: more)
      = (fst (play_session_from word used) ++ [Input play_again_prompt]
           ++ fst (play_loop fuel draws (S k) more),
         snd (play_loop fuel draws (S k) more)))
  /\ (Py.lower answer <> "yes" ->
      play_loop (S fuel) draws k (used ++ answer :: more)
      = (fst (play_session_from word used) ++ [Input play_again_prompt],
         inr (Some tt))).
Proof.
  intros Hword Hres. split.
  - split.
    + destruct answer as [|c1 [|c2 [|c3 [|c4 rest]]]]; try discriminate.
      simpl. intros [= H1 H2 H3].
      apply (proj1 (lower_char_yes c1)) in H1.
      apply (proj1 (proj2 (lower_char_yes c2))) in H2.
      apply (proj2 (proj2 (lower_char_yes c3))) in H3.
      destruct H1 as [-> | ->], H2 as [-> | ->], H3 as [-> | ->];
        apply (bool_decide_unpack _); vm_compute; exact I.
    + intros Hin.
      repeat (apply elem_of_cons in Hin as [->|Hin]; [reflexivity|]).
      inversion Hin.
  - assert (play_session_from word (used ++ answer :: more)
            = (fst (play_session_from word used),
               inr (st, answer :: more))) as Hsession.
    { assert (reachable (new_game word)) as Hreach
        by (exists []; eapply new_game_session; exact Hword).
      pose proof (new_game_in_progress word (choose_word_elem _ _ _ Hword))
        as Hst.
      unfold play_session_from, round_start_from in *.
      rewrite !(io_bind_pair (show (new_game word) _ _) _ tt) in *
        by (apply show_returns, Hreach).
      cbn beta in *. rewrite Hst in *. cbn [fst snd] in *.
      rewrite (guess_loop_from_more used _ st (answer :: more) Hreach Hst Hres).
      reflexivity. }
    cbn [play_loop]. rewrite Hword, Hsession.
    rewrite (io_bind_pair (_, _) _ (st, answer :: more)) by reflexivity.
    cbn beta. cbn [fst snd].
    rewrite (io_bind_pair (io_tell _) _ tt) by reflexivity.
    cbn beta zeta. cbn [fst snd io_tell].
    split; intros Hyes;
      (destruct (decide (Py.lower answer <> "yes")); [|]);
      try contradiction; reflexivity.
Qed.

Lemma play_again_witness :
  play_loop 3 (fun _ => 7%nat) 0 (["r"; "e"; "t"; "o"] ++ "y" :: ["yes"; "r"])
  = (fst (play_session_from "RETRO" ["r"; "e"; "t"; "o"])
       ++ [Input play_again_prompt],
     inr (Some tt)).
Proof.
  apply (proj2 (proj2 (play_again 2 (fun _ => 7%nat) 0 "RETRO"
                         (fst (run (new_game "RETRO") ["r"; "e"; "t"; "o"]))
                         ["r"; "e"; "t"; "o"] "y" ["yes"; "r"]
                         eq_refl ltac:(vm_compute; reflexivity)))).
  discriminate.
Defined.

(** X8: a session on a word of the list never fails on the lookup of the
    stage or in any other way but one: either it returns a final state,
    won or lost, on the chosen word, reached by the guesses it accepted,
    or the input ends while the game is still running and it raises
    [EOFError]. *)
Theorem play_session_outcome (r : nat) (word : string)
    (inputs : list string) :
  choose_word WORD_LIST r = inr word ->
  (snd (play_session word inputs) = inl Py.EOFError
   /\ status (fst (run (new_game word) inputs)) = InProgress)
  \/ exists st : GameState,
       snd (play_session word inputs) = inr st
       /\ session (snd (run (new_game word) inputs)) st
       /\ chosen_word st = word
       /\ (status st = Won \/ status st = Lost).
Proof.
  intros Hword.
  destruct (play_session_run r word inputs Hword) as [_ Hplay].
  pose proof (run_steps (new_game word) inputs) as Hsteps.
  destruct (status (fst (run (new_game word) inputs))) eqn:Hst.
  - left. split; [exact Hplay|reflexivity].
  - right. exists (fst (run (new_game word) inputs)).
    split; [exact Hplay|]. split; [exists r, word; auto|].
    split; [apply steps_subset in Hsteps as [Hw _]; exact Hw|auto].
  - right. exists (fst (run (new_game word) inputs)).
    split; [exact Hplay|]. split; [exists r, word; auto|].
    split; [apply steps_subset in Hsteps as [Hw _]; exact Hw|auto].
Qed.

Lemma play_session_outcome_witness :
  snd (play_session "PIXEL" ["p"; "i"; "x"])
  = inl Py.EOFError
  \/ exists st : GameState,
       snd (play_session "PIXEL" ["p"; "i"; "x"]) = inr st
       /\ (status st = Won \/ status st = Lost).
Proof.
  destruct (play_session_outcome 14 "PIXEL" ["p"; "i"; "x"] eq_refl)
    as [[Heof _]|(st & Hres & _ & _ & Hend)].
  - left. exact Heof.
  - right. exists st. auto.
Defined.

(** ** Columns of the screen *)

Lemma visible_free (a b : string) :
  escape_free a ->
  visible_from Text (a +:+ b) = a +:+ visible_from Text b.
Proof.
  unfold escape_free. induction a as [|c a IH]; intros Hfree; [reflexivity|].
  change (String c a +:+ b) with (String c (a +:+ b)).
  cbn [visible_from Py.chars] in *.
  destruct (decide (c = ESC)) as [->|Hne].
  - exfalso. apply Hfree. apply elem_of_cons. auto.
  - rewrite IH; [reflexivity|].
    intros Hin. apply Hfree. apply elem_of_cons. auto.
Qed.

Lemma columns_free (s : string) :
  escape_free s -> columns s = String.length s.
Proof.
  intros Hfree. unfold columns.
  rewrite <- (str_app_nil_r s) at 1. rewrite visible_free by exact Hfree.
  cbn [visible_from]. now rewrite str_app_nil_r.
Qed.

Lemma escape_free_app (a b : string) :
  escape_free (a +:+ b) <-> escape_free a /\ escape_free b.
Proof.
  unfold escape_free. rewrite chars_app, elem_of_app. tauto.
Qed.

Lemma escape_free_spaces (n : nat) : escape_free (Py.str_mul " " n).
Proof.
  induction n as [|n IH]; simpl; [intros H; inversion H|].
  apply escape_free_app. split; [|exact IH].
  intros H. apply elem_of_cons in H as [H|H]; [discriminate H|inversion H].
Qed.

Lemma escape_free_bordered (line : string) :
  escape_free line ->
  escape_free ("| " +:+ Py.ljust line (width - 4) +:+ " |").
Proof.
  intros Hline. unfold Py.ljust.
  repeat (apply escape_free_app; split);
    try exact Hline; try apply escape_free_spaces;
    intros H; repeat (apply elem_of_cons in H as [H|H]; [discriminate H|]);
    inversion H.
Qed.

Lemma escape_free_letter (x : string) : uppercase_letter x -> escape_free x.
Proof.
  intros (c & -> & Hrange) H.
  apply elem_of_cons in H as [H|H]; [|inversion H].
  injection H as <-. vm_compute in Hrange. lia.
Qed.

Lemma escape_free_word (word : string) :
  Forall uppercase_letter (Py.chars word) -> escape_free word.
Proof.
  intros Hall Hin. rewrite Forall_forall in Hall.
  apply Hall, escape_free_letter in Hin. apply Hin.
  apply elem_of_cons. auto.
Qed.

Lemma escape_free_join (l : list string) :
  Forall escape_free l -> escape_free (Py.join ", " l).
Proof.
  unfold Py.join. induction 1 as [|x l Hx Hl IH]; [intros H; inversion H|].
  destruct l as [|y l]; [exact Hx|].
  change (escape_free (x +:+ ", " +:+ String.concat ", " (y :: l))).
  repeat (apply escape_free_app; split); try assumption.
  intros H. repeat (apply elem_of_cons in H as [H|H]; [discriminate H|]).
  inversion H.
Qed.

Lemma escape_free_display_word (word : string) (guessed : gset string) :
  Forall uppercase_letter (Py.chars word) ->
  escape_free (display_word word guessed).
Proof.
  induction word as [|c word IH]; intros Hall; [intros H; inversion H|].
  simpl in Hall. apply Forall_cons in Hall as [Hc Hall].
  rewrite display_word_cons. apply escape_free_app. split; [|auto].
  destruct (decide (String c EmptyString ∈ guessed)).
  - change (String c " ") with (String c EmptyString +:+ " ").
    apply escape_free_app. split; [apply escape_free_letter, Hc|].
    intros H. apply elem_of_cons in H as [H|H]; [discriminate H|inversion H].
  - intros H. repeat (apply elem_of_cons in H as [H|H]; [discriminate H|]).
    inversion H.
Qed.

Lemma escape_free_word_line (word : string) (guessed : gset string) :
  word <> EmptyString -> Forall uppercase_letter (Py.chars word) ->
  escape_free (word_line word guessed).
Proof.
  intros Hne Hall.
  assert (escape_free (word_line word guessed +:+ " ")) as Hfree.
  { rewrite word_line_space by assumption.
    apply escape_free_app. split; [|apply escape_free_display_word, Hall].
    intros H. repeat (apply elem_of_cons in H as [H|H]; [discriminate H|]).
    inversion H. }
  apply escape_free_app in Hfree as [Hfree _]. exact Hfree.
Qed.

Lemma escape_free_guessed_line (guessed : gset string) :
  (forall x : string, x ∈ guessed -> uppercase_letter x) ->
  escape_free (guessed_line guessed).
Proof.
  intros Hletters. unfold guessed_line. apply escape_free_app. split.
  - intros H. repeat (apply elem_of_cons in H as [H|H]; [discriminate H|]).
    inversion H.
  - apply escape_free_join. apply Forall_forall. intros x Hx.
    apply sorted_elem in Hx. apply escape_free_letter, Hletters. set_solver.
Qed.

Lemma escape_free_left_line (i : Z) :
  0 <= i <= MAX_INCORRECT_GUESSES -> escape_free (left_line i).
Proof.
  rewrite max_incorrect_guesses. intros Hi.
  assert (i = 0 \/ i = 1 \/ i = 2 \/ i = 3 \/ i = 4 \/ i = 5 \/ i = 6)
    as Hcases by lia.
  destruct Hcases as [->|[->|[->|[->|[->|[->| ->]]]]]];
    intros H; vm_compute in H;
    repeat (apply elem_of_cons in H as [H|H]; [discriminate H|]);
    inversion H.
Qed.

Lemma escape_free_stage (stage : string) :
  stage ∈ HANGMAN_STAGES -> Forall escape_free (Py.split "010" stage).
Proof.
  intros Hin. unfold HANGMAN_STAGES in Hin.
  repeat (apply elem_of_cons in Hin as [->|Hin];
          [repeat (constructor;
                   [intros H; vm_compute in H;
                    repeat (apply elem_of_cons in H as [H|H];
                            [discriminate H|]);
                    inversion H|]);
           constructor|]).
  inversion Hin.
Qed.

Lemma frame_rows_title (title : string) (rest : list string) :
  frame_rows (title :: rest)
  = (border_row, false)
      :: ("| " +:+ Py.ljust title (width - 4) +:+ " |", true)
      :: map (fun line => ("| " +:+ line +:+ " |", true))
             (pad_lines rest
                ++ replicate (21 - length (pad_lines rest))
                             (Py.ljust EmptyString (width - 4)))
      ++ [(border_row, false)].
Proof. reflexivity. Qed.

(** The screen of a reachable state: the border, the title row, and 22
    more rows without escape character, which are all 80 characters long
    exactly when the message has at most 67 characters. *)
Lemma screen_rows (st : GameState) (message : string) :
  reachable st -> escape_free message ->
  exists others : list (string * bool),
    game_rows (chosen_word st) (guessed_letters st) (incorrect_guesses st)
              message
    = inr ((border_row, false) :: (title_row, true) :: others)
    /\ length others = 22%nat
    /\ Forall (fun row => escape_free (fst row)) others
    /\ (Forall (fun row => String.length (fst row) = 80%nat) others
        <-> (String.length message <= 67)%nat).
Proof.
  intros Hreach Hmsg.
  pose proof (reachable_bounds st Hreach) as Hb.
  pose proof Hreach as [hist Hs].
  apply session_invariant in Hs as (word & Hin & Hinv).
  apply word_list_facts in Hin as (Hne & Hletters & _).
  destruct (getitem_stage _ Hb) as (stage & Hget & Hlook & Hnine & _).
  assert (stage ∈ HANGMAN_STAGES) as Hstage
    by (eapply list_elem_of_lookup_2; exact Hlook).
  pose proof (escape_free_stage stage Hstage) as Hart.
  assert (Forall escape_free
            (EmptyString
               :: Py.split "010" stage
               ++ [EmptyString;
                   word_line (chosen_word st) (guessed_letters st);
                   guessed_line (guessed_letters st);
                   left_line (incorrect_guesses st);
                   EmptyString; status_line message; EmptyString; " >_ "]))
    as Hfree.
  { constructor; [intros H; inversion H|].
    apply Forall_app. split; [exact Hart|].
    constructor; [intros H; inversion H|].
    constructor;
      [rewrite (inv_word _ _ _ Hinv);
       apply escape_free_word_line; assumption|].
    constructor;
      [apply escape_free_guessed_line; intros x Hx;
       eapply invariant_letters; eassumption|].
    constructor; [apply escape_free_left_line, Hb|].
    constructor; [intros H; inversion H|].
    constructor.
    { unfold status_line. apply escape_free_app. split; [|exact Hmsg].
      intros H. repeat (apply elem_of_cons in H as [H|H]; [discriminate H|]).
      inversion H. }
    constructor; [intros H; inversion H|].
    constructor; [|constructor].
    intros H. repeat (apply elem_of_cons in H as [H|H]; [discriminate H|]).
    inversion H. }
  unfold game_rows, game_content. rewrite Hget. cbv zeta. cbn [app].
  rewrite frame_rows_title.
  match goal with
  | |- context [pad_lines ?rest] => set (lines := rest) in *
  end.
  assert (length lines = 18%nat) as Hlen
    by (unfold lines; cbn [length]; rewrite length_app, Hnine; reflexivity).
  assert (length (pad_lines lines) = 18%nat) as Hpad
    by (unfold pad_lines; rewrite length_map; exact Hlen).
  eexists. split; [reflexivity|]. split; [|split].
  - rewrite length_app, length_map, length_app, length_replicate, Hpad.
    reflexivity.
  - apply Forall_app. split; [|constructor; [|constructor]].
    + apply Forall_map. apply Forall_app. split.
      * unfold pad_lines. apply Forall_map.
        eapply Forall_impl; [exact Hfree|]. intros line Hline. cbn [fst].
        apply escape_free_bordered, Hline.
      * apply Forall_replicate. cbn [fst].
        apply escape_free_bordered. intros H. inversion H.
    + cbn [fst]. intros H. vm_compute in H.
      repeat (apply elem_of_cons in H as [H|H]; [discriminate H|]).
      inversion H.
  - split.
    + intros Hall. apply Forall_app in Hall as [Hall _].
      apply Forall_map in Hall. apply Forall_app in Hall as [Hall _].
      unfold pad_lines in Hall. apply Forall_map in Hall.
      unfold lines in Hall.
      apply Forall_cons in Hall as [_ Hall].
      apply Forall_app in Hall as [_ Hall].
      do 5 (apply Forall_cons in Hall as [_ Hall]).
      apply Forall_cons in Hall as [Hstatus _].
      cbn [fst] in Hstatus.
      rewrite !str_length_app, ljust_length in Hstatus.
      unfold status_line in Hstatus. rewrite str_length_app in Hstatus.
      change (String.length " Status: ") with 9%nat in Hstatus.
      change (String.length "| ") with 2%nat in Hstatus.
      change (String.length " |") with 2%nat in Hstatus.
      change (width - 4)%nat with 76%nat in Hstatus. lia.
    + intros Hshort.
      destruct (reachable_content st message Hreach Hshort)
        as (content & Hcontent & _ & Hfit).
      unfold game_content in Hcontent. rewrite Hget in Hcontent.
      cbv zeta in Hcontent. injection Hcontent as <-.
      apply frame_rows_width in Hfit. cbn [app] in Hfit.
      rewrite frame_rows_title in Hfit.
      apply Forall_cons in Hfit as [_ Hfit].
      apply Forall_cons in Hfit as [_ Hfit]. exact Hfit.
Qed.

(** X4: in a reachable state, and for a status message without escape
    character, the screen is the border row, the title row and 22 more
    rows.  On the terminal the title row is always 72 columns wide: its 80
    characters include the 8 characters of the codes written into the
    title.  The border is 80 columns wide, and the 22 other rows are all
    exactly 80 columns wide if and only if the message has at most 67
    characters. *)
Theorem screen_columns (st : GameState) (message : string) :
  reachable st -> escape_free message ->
  exists others : list (string * bool),
    game_rows (chosen_word st) (guessed_letters st) (incorrect_guesses st)
              message
    = inr ((border_row, false) :: (title_row, true) :: others)
    /\ length others = 22%nat
    /\ columns border_row = 80%nat
    /\ columns title_row = 72%nat
    /\ String.length title_row = 80%nat
    /\ (Forall (fun row => columns (fst row) = 80%nat) others
        <-> (String.length message <= 67)%nat).
Proof.
  intros Hreach Hmsg.
  destruct (screen_rows st message Hreach Hmsg)
    as (others & Hrows & Hlen & Hfree & Hiff).
  exists others. split; [exact Hrows|]. split; [exact Hlen|].
  split; [reflexivity|]. split; [reflexivity|]. split; [reflexivity|].
  rewrite <- Hiff. rewrite Forall_forall in Hfree.
  split; intros Hall; apply Forall_forall; intros row Hrow;
    rewrite Forall_forall in Hall; specialize (Hall row Hrow);
    rewrite columns_free in * by (apply Hfree, Hrow); exact Hall.
Qed.

Lemma screen_columns_witness :
  exists others : list (string * bool),
    game_rows "RETRO" ∅ 0 "Guess a letter."
    = inr ((border_row, false) :: (title_row, true) :: others)
    /\ columns title_row = 72%nat
    /\ (Forall (fun row => columns (fst row) = 80%nat) others
        <-> (String.length "Guess a letter." <= 67)%nat).
Proof.
  destruct (screen_columns (new_game "RETRO") "Guess a letter."
              (ex_intro _ [] (new_game_session 7 "RETRO" eq_refl)))
    as (others & Hrows & _ & _ & Htitle & _ & Hiff).
  - intros H. vm_compute in H.
    repeat (apply elem_of_cons in H as [H|H]; [discriminate H|]).
    inversion H.
  - exists others. split; [exact Hrows|]. split; [exact Htitle|exact Hiff].
Defined.

(** ** Every screen of a session *)

Ltac literal_escape_free :=
  let H := fresh "H" in
  intros H; vm_compute in H;
  repeat (apply elem_of_cons in H as [H|H]; [discriminate H|]);
  inversion H.

Lemma get_guess_printed (raw : string) (already_guessed : gset string) :
  printed (fst (get_guess raw already_guessed)) = []
  \/ printed (fst (get_guess raw already_guessed))
     = [apply_crt_style invalid_message true]
  \/ exists guess : string,
       printed (fst (get_guess raw already_guessed))
       = [apply_crt_style (already_message guess) true].
Proof.
  unfold get_guess.
  destruct (invalid_guess (Py.upper raw)); [right; left; reflexivity|].
  destruct (decide (Py.upper raw ∈ already_guessed));
    [right; right; eexists; reflexivity|left; reflexivity].
Qed.

Lemma styled_columns (text : string) (bright : bool) :
  escape_free text ->
  columns (apply_crt_style text bright) = String.length text.
Proof.
  intros Hfree. unfold columns, apply_crt_style.
  destruct bright;
    match goal with
    | |- String.length (visible_from Text (_ +:+ _ +:+ _ +:+ ?rest)) = _ =>
        change (String.length (visible_from Text rest) = String.length text)
    end;
    rewrite visible_free by exact Hfree;
    change (visible_from Text Colorama.Style_RESET_ALL) with EmptyString;
    now rewrite str_app_nil_r.
Qed.

Lemma game_frame_rows (word : string) (guessed : gset string) (i : Z)
    (message : string) (rows : list (string * bool)) :
  game_rows word guessed i message = inr rows ->
  game_frame word guessed i message
  = inr (map (fun row => apply_crt_style (fst row) (snd row)) rows).
Proof.
  unfold game_rows, game_frame.
  destruct (game_content word guessed i message); [discriminate|].
  intros [= <-]. reflexivity.
Qed.

Lemma show_columns (st : GameState) (message : string) (skip_effect : bool) :
  reachable st -> escape_free message -> (String.length message <= 67)%nat ->
  Forall (fun line =>
            columns line = 80%nat \/ line = apply_crt_style title_row true)
         (printed (fst (show st message skip_effect))).
Proof.
  intros Hreach Hfree Hshort.
  destruct (screen_rows st message Hreach Hfree)
    as (others & Hrows & _ & Hclean & Hiff).
  apply Hiff in Hshort.
  apply game_frame_rows in Hrows.
  destruct (display_game_lines _ _ _ _ skip_effect _ Hrows)
    as (body & Hout & Hprinted).
  unfold show. rewrite Hout. cbn [fst].
  change (printed (Clear :: body)) with (printed body). rewrite Hprinted.
  cbn [map fst snd].
  constructor; [left; reflexivity|]. constructor; [right; reflexivity|].
  apply Forall_map. rewrite Forall_forall in *. intros row Hrow. left.
  rewrite styled_columns by (apply Hclean, Hrow). apply Hshort, Hrow.
Qed.

Lemma reachable_word_free (st : GameState) :
  reachable st ->
  escape_free (chosen_word st)
  /\ (String.length (chosen_word st) <= 11)%nat.
Proof.
  intros [hist Hs]. apply session_invariant in Hs as (word & Hin & Hinv).
  rewrite (inv_word _ _ _ Hinv). split; [|apply word_list_length, Hin].
  apply word_list_facts in Hin as (_ & Hletters & _).
  apply escape_free_word, Hletters.
Qed.

Lemma round_start_columns (P : string -> Prop) (st : GameState)
    (continue : io GameState) :
  (forall line : string,
      columns line = 80%nat \/ line = apply_crt_style title_row true ->
      P line) ->
  reachable st ->
  (status st = InProgress -> Forall P (printed (fst continue))) ->
  Forall P (printed (fst (round_start st continue))).
Proof.
  intros HP Hreach Hcont. unfold round_start.
  destruct (reachable_word_free st Hreach) as [Hfree Hword].
  rewrite (io_bind_fst (show st _ _) _ tt) by (apply show_returns, Hreach).
  rewrite printed_app. apply Forall_app. split.
  { eapply Forall_impl; [|exact HP].
    apply show_columns;
      [exact Hreach|literal_escape_free|vm_compute; lia]. }
  destruct (status st); [apply Hcont; reflexivity| |];
    rewrite (io_bind_fst (show st _ _) _ tt) by (apply show_returns, Hreach);
    cbn [io_ret fst]; rewrite app_nil_r;
    (eapply Forall_impl; [apply show_columns; [exact Hreach| |]|exact HP]).
  - literal_escape_free.
  - vm_compute. lia.
  - repeat (apply escape_free_app; split); try exact Hfree;
      literal_escape_free.
  - rewrite !str_length_app.
    change (String.length "GAME OVER! The word was '") with 25%nat.
    change (String.length "'.") with 2%nat. lia.
Qed.

Lemma report_guess_columns (st : GameState) (guess : string) :
  reachable st -> uppercase_letter guess ->
  Forall (fun line =>
            columns line = 80%nat \/ line = apply_crt_style title_row true)
         (printed (fst (report_guess st guess))).
Proof.
  intros Hreach Hletter.
  pose proof (escape_free_letter guess Hletter) as Hfree.
  apply uppercase_letter_length in Hletter.
  unfold report_guess.
  destruct (negb (Py.contains guess (chosen_word st)));
    rewrite (io_bind_fst (show st _ _) _ tt) by (apply show_returns, Hreach);
    cbn [io_tell fst]; rewrite printed_app;
    change (printed [Sleep 1000]) with (@nil string); rewrite app_nil_r;
    (apply show_columns;
     [exact Hreach
     |repeat (apply escape_free_app; split); try exact Hfree;
      literal_escape_free
     |rewrite !str_length_app, Hletter; simpl; lia]).
Qed.

(** X16: every line that a session on a word of the list prints is 80
    columns wide on the terminal, except the title row of each screen,
    which is 72 columns wide, and the two rejection messages of
    [get_guess]: with the program's own status messages no row but the
    title row has another width than 80. *)
Theorem session_columns (r : nat) (word : string) (inputs : list string) :
  choose_word WORD_LIST r = inr word ->
  columns (apply_crt_style title_row true) = 72%nat
  /\ Forall (fun line =>
               columns line = 80%nat
               \/ line = apply_crt_style title_row true
               \/ line = apply_crt_style invalid_message true
               \/ exists guess : string,
                    line = apply_crt_style (already_message guess) true)
            (printed (fst (play_session word inputs))).
Proof.
  intros Hword. split; [reflexivity|].
  assert (forall line : string,
             columns line = 80%nat \/ line = apply_crt_style title_row true ->
             columns line = 80%nat
             \/ line = apply_crt_style title_row true
             \/ line = apply_crt_style invalid_message true
             \/ exists guess : string,
                  line = apply_crt_style (already_message guess) true)
    as HP by (intros line [H|H]; auto).
  assert (reachable (new_game word)) as Hreach0
    by (exists []; eapply new_game_session; exact Hword).
  unfold play_session.
  apply round_start_columns; [exact HP|exact Hreach0|]. intros Hst0.
  generalize (new_game word) Hreach0 Hst0. clear Hreach0 Hst0 Hword.
  induction inputs as [|raw rest IH]; intros st Hreach Hst;
    cbn [guess_loop];
    rewrite (io_bind_fst (show st _ _) _ tt) by (apply show_returns, Hreach);
    rewrite printed_app; apply Forall_app;
    (split; [eapply Forall_impl;
             [apply show_columns;
              [exact Hreach|literal_escape_free|vm_compute; lia]
             |exact HP]|]).
  - constructor.
  - pose proof (get_guess_result raw (guessed_letters st)) as Hres.
    rewrite (io_bind_fst (get_guess _ _) _ _ Hres).
    rewrite printed_app. apply Forall_app. split.
    { destruct (get_guess_printed raw (guessed_letters st))
        as [-> |[-> |[guess ->]]].
      - constructor.
      - constructor; [right; right; left; reflexivity|constructor].
      - constructor; [right; right; right; eauto|constructor]. }
    destruct (invalid_guess (Py.upper raw)) eqn:Hinv;
      [apply IH; assumption|].
    destruct (decide (Py.upper raw ∈ guessed_letters st)) as [Hold|Hnew];
      [apply IH; assumption|].
    apply invalid_guess_false in Hinv.
    assert (step st (Py.upper raw) (apply_guess st (Py.upper raw))) as Hstep.
    { apply (step_guess _ _ raw); [exact Hst|].
      apply get_guess_accepts. auto. }
    pose proof (step_reachable _ _ _ Hreach Hstep) as Hreach'.
    cbv zeta.
    rewrite (io_bind_fst (report_guess _ _) _ tt)
      by (apply report_guess_returns, Hreach').
    rewrite printed_app. apply Forall_app. split.
    { eapply Forall_impl; [apply report_guess_columns; assumption|exact HP]. }
    apply round_start_columns; [exact HP|exact Hreach'|].
    intros Hst'. apply IH; assumption.
Qed.

Lemma session_columns_witness :
  Forall (fun line =>
            columns line = 80%nat
            \/ line = apply_crt_style title_row true
            \/ line = apply_crt_style invalid_message true
            \/ exists guess : string,
                 line = apply_crt_style (already_message guess) true)
         (printed (fst (play_session "PIXEL" ["p"; "7"; "p"; "q"]))).
Proof.
  exact (proj2 (session_columns 14 "PIXEL" ["p"; "7"; "p"; "q"] eq_refl)).
Defined.
